(** * The authentication store of the route optimisation console

    A shallow embedding of [src/store/authStore.ts] (the Zustand store
    [useAuthStore]) together with the part of the Supabase client it talks
    to.  The store is a record of four fields that is only ever changed
    through Zustand's [set], which merges a partial object into it; the four
    actions [login], [register], [logout] and [clearError] are asynchronous
    functions built from [set], [await], [throw] and [try]/[catch].

    The actions are written in a small monad that threads the store and a log
    of the calls made to the Supabase client, and that carries JavaScript
    exceptions, so that each action below can be read side by side with its
    source. *)

From Stdlib Require Import String Ascii List ZArith Bool Arith Lia.
Import ListNotations.

Local Open Scope string_scope.

(** ** JavaScript values *)

(** [user_metadata] is typed [Record<string, any>] by the Supabase client:
    what comes back under the keys [username] and [role] is whatever JSON the
    provider stored there.  [JObject] stands for any object or array; numbers
    are the integer valued ones. *)
Inductive JsValue : Type :=
| JUndefined
| JNull
| JBoolean (b : bool)
| JNumber (n : Z)
| JString (s : string)
| JObject.

(** ToBoolean: [undefined], [null], [false], [0] and the empty string are
    falsy, everything else is truthy. *)
Definition truthy (v : JsValue) : bool :=
  match v with
  | JUndefined | JNull => false
  | JBoolean b => b
  | JNumber n => negb (Z.eqb n 0)
  | JString s => negb (String.eqb s "")
  | JObject => true
  end.

(** [a || b] *)
Definition js_or (a b : JsValue) : JsValue :=
  if truthy a then a else b.

(** What is thrown or carried as [error]: an [Error] object, as the [catch]
    blocks take it ([(error as Error).message]); the store only ever reads
    its [message]. *)
Record JsError : Type := mkError { message : string }.

(** ** Data model ([src/types/index.ts] and the [AuthState] interface) *)

(** [User].  [email] is a string because the store reads it through a
    non-null assertion ([data.user.email!]); [username] and [role] hold what
    the [||] expressions of [login] evaluate to. *)
Record User : Type := mkUser {
  id : string;
  username : JsValue;
  email : string;
  role : JsValue
}.

(** The state part of [AuthState]. *)
Record AuthState : Type := mkAuthState {
  user : option User;
  isAuthenticated : bool;
  isLoading : bool;
  error : option string
}.

(** The initial state given to [create]. *)
Definition initialState : AuthState :=
  {| user := None; isAuthenticated := false; isLoading := false; error := None |}.

(** ** The Supabase client, as far as the store uses it *)

Record UserMetadata : Type := mkMetadata {
  md_username : JsValue;
  md_role : JsValue
}.

(** The [User] object of the Supabase auth API. *)
Record AuthUser : Type := mkAuthUser {
  au_id : string;
  au_email : string;
  user_metadata : UserMetadata
}.

(** [{ data: { user }, error }], the shape both [signInWithPassword] and
    [signUp] resolve to. *)
Record AuthResponse : Type := mkAuthResponse {
  data_user : option AuthUser;
  auth_error : option JsError
}.

(** A row of [users] restricted to the selected column. *)
Record UserRow : Type := mkUserRow { row_email : string }.

(** [{ data, error }] of [.from('users').select('email').eq('email', e).single()]. *)
Record QueryResponse : Type := mkQueryResponse {
  query_data : option UserRow;
  query_error : option JsError
}.

(** [{ error }] of [signOut]. *)
Record SignOutResponse : Type := mkSignOutResponse {
  signout_error : option JsError
}.

(** How a promise settles. *)
Inductive Settled (A : Type) : Type :=
| Fulfilled (a : A)
| Rejected (e : JsError).
Arguments Fulfilled {A} a.
Arguments Rejected {A} e.

(** The client: for every call the store can make, how the returned promise
    settles. *)
Record SupabaseClient : Type := mkClient {
  signInWithPassword : string -> string -> Settled AuthResponse;
  selectUserByEmail : string -> Settled QueryResponse;
  signUp : string -> string -> UserMetadata -> Settled AuthResponse;
  signOut : Settled SignOutResponse
}.

(** The calls, as they are recorded in the log. *)
Inductive Call : Type :=
| CallSignInWithPassword (email password : string)
| CallSelectUserByEmail (email : string)
| CallSignUp (email password : string) (options_data : UserMetadata)
| CallSignOut.

Definition is_signUp (c : Call) : bool :=
  match c with
  | CallSignUp _ _ _ => true
  | _ => false
  end.

(** ** Zustand's [set] *)

(** The partial object passed to [set]: a field is either absent or gives the
    new value. *)
Record Partial : Type := mkPartial {
  set_user : option (option User);
  set_isAuthenticated : option bool;
  set_isLoading : option bool;
  set_error : option (option string)
}.

Definition orElse {A : Type} (o : option A) (d : A) : A :=
  match o with
  | Some a => a
  | None => d
  end.

(** [Object.assign({}, state, partial)] *)
Definition merge (p : Partial) (s : AuthState) : AuthState :=
  {| user := orElse (set_user p) (user s);
     isAuthenticated := orElse (set_isAuthenticated p) (isAuthenticated s);
     isLoading := orElse (set_isLoading p) (isLoading s);
     error := orElse (set_error p) (error s) |}.

(** ** The monad of asynchronous actions *)

Module Async.

(** What an action runs in: the store and the log of client calls, oldest
    first. *)
Record World : Type := mkWorld {
  store : AuthState;
  calls : list Call
}.

(** An action either completes normally or throws. *)
Inductive Completion (A : Type) : Type :=
| Normal (a : A)
| Throw (e : JsError).
Arguments Normal {A} a.
Arguments Throw {A} e.

Definition t (A : Type) : Type := World -> Completion A * World.

Definition ret {A : Type} (a : A) : t A :=
  fun w => (Normal a, w).

Definition bind {A B : Type} (m : t A) (k : A -> t B) : t B :=
  fun w =>
    match m w with
    | (Normal a, w') => k a w'
    | (Throw e, w') => (Throw e, w')
    end.

Definition throw {A : Type} (e : JsError) : t A :=
  fun w => (Throw e, w).

(** [try { body } catch (error) { handler }] *)
Definition try_catch {A : Type} (body : t A) (handler : JsError -> t A) : t A :=
  fun w =>
    match body w with
    | (Normal a, w') => (Normal a, w')
    | (Throw e, w') => handler e w'
    end.

(** [set(partial)] *)
Definition set (p : Partial) : t unit :=
  fun w => (Normal tt, {| store := merge p (store w); calls := calls w |}).

(** [await] of a client call: the call is made (and logged), and a
    rejected promise is thrown at the [await]. *)
Definition await {A : Type} (c : Call) (p : Settled A) : t A :=
  fun w =>
    let w' := {| store := store w; calls := calls w ++ [c] |} in
    match p with
    | Fulfilled a => (Normal a, w')
    | Rejected e => (Throw e, w')
    end.

(** Running an action on a store, with an empty log. *)
Definition run {A : Type} (m : t A) (s : AuthState) : Completion A * World :=
  m {| store := s; calls := [] |}.

End Async.

Import Async.

Declare Scope async_scope.
Delimit Scope async_scope with async.
Notation "x <- m ;; k" := (bind m (fun x => k))
  (at level 61, m at next level, right associativity) : async_scope.
Notation "m ;; k" := (bind m (fun _ => k))
  (at level 61, right associativity) : async_scope.
Notation "'try' body 'catch' handler" := (try_catch body handler)
  (at level 60, body at level 200, handler at level 9) : async_scope.

Local Open Scope async_scope.

(** [if (error) { throw error; }]: an error object is truthy, [null] is not. *)
Definition throw_if_error (error : option JsError) : Async.t unit :=
  match error with
  | Some e => throw e
  | None => ret tt
  end.

(** ** The four actions *)

Definition login_error_message : string :=
  "Email o contraseña inválidos. Por favor intente nuevamente.".

Definition duplicate_account_message : string :=
  "Ya existe una cuenta con este email. Por favor inicie sesión.".

Definition login (supabase : SupabaseClient) (email password : string)
  : Async.t unit :=
  set {| set_user := None; set_isAuthenticated := None;
         set_isLoading := Some true; set_error := Some None |} ;;
  try (
    r <- await (CallSignInWithPassword email password)
               (signInWithPassword supabase email password) ;;
    throw_if_error (auth_error r) ;;
    match data_user r with
    | Some data_user =>
        let user := {| id := au_id data_user;
                       email := au_email data_user;
                       username := js_or (md_username (user_metadata data_user))
                                         (JString (au_email data_user));
                       role := js_or (md_role (user_metadata data_user))
                                     (JString "user") |} in
        set {| set_user := Some (Some user); set_isAuthenticated := Some true;
               set_isLoading := Some false; set_error := Some None |}
    | None => ret tt
    end
  ) catch (fun _ =>
    set {| set_error := Some (Some login_error_message);
           set_isLoading := Some false;
           set_isAuthenticated := Some false;
           set_user := Some None |}).

Definition register (supabase : SupabaseClient) (username email password : string)
  : Async.t unit :=
  set {| set_user := None; set_isAuthenticated := None;
         set_isLoading := Some true; set_error := Some None |} ;;
  try (
    q <- await (CallSelectUserByEmail email) (selectUserByEmail supabase email) ;;
    match query_data q with
    | Some existingUser => throw (mkError duplicate_account_message)
    | None => ret tt
    end ;;
    let options_data := {| md_username := JString username;
                           md_role := JString "user" |} in
    r <- await (CallSignUp email password options_data)
               (signUp supabase email password options_data) ;;
    throw_if_error (auth_error r) ;;
    match data_user r with
    | Some data_user =>
        let user := {| id := au_id data_user;
                       email := au_email data_user;
                       username := JString username;
                       role := JString "user" |} in
        set {| set_user := Some (Some user); set_isAuthenticated := Some true;
               set_isLoading := Some false; set_error := Some None |}
    | None => ret tt
    end
  ) catch (fun error =>
    set {| set_error := Some (Some (message error));
           set_isLoading := Some false;
           set_isAuthenticated := Some false;
           set_user := Some None |}).

Definition logout (supabase : SupabaseClient) : Async.t unit :=
  try (
    r <- await CallSignOut (signOut supabase) ;;
    throw_if_error (signout_error r) ;;
    set {| set_user := Some None; set_isAuthenticated := Some false;
           set_isLoading := None; set_error := Some None |}
  ) catch (fun error =>
    set {| set_user := None; set_isAuthenticated := None;
           set_isLoading := None; set_error := Some (Some (message error)) |}).

Definition clearError : Async.t unit :=
  set {| set_user := None; set_isAuthenticated := None;
         set_isLoading := None; set_error := Some None |}.

(** The store and the log an action leaves behind. *)
Definition store_after (m : Async.t unit) (s : AuthState) : AuthState :=
  store (snd (run m s)).

Definition calls_of (m : Async.t unit) (s : AuthState) : list Call :=
  calls (snd (run m s)).

(** What the [try] block sees as thrown by an auth call: the rejection of the
    promise, or the [error] of the resolved response ([if (error) throw
    error]); [None] when the call succeeded. *)
Definition auth_failure (p : Settled AuthResponse) : option JsError :=
  match p with
  | Rejected e => Some e
  | Fulfilled r => auth_error r
  end.

Definition signOut_failure (p : Settled SignOutResponse) : option JsError :=
  match p with
  | Rejected e => Some e
  | Fulfilled r => signout_error r
  end.

(** ** Runs of the store *)

(** One call of an action, with the client it meets. *)
Inductive Transition : Type :=
| DoLogin (supabase : SupabaseClient) (email password : string)
| DoRegister (supabase : SupabaseClient) (username email password : string)
| DoLogout (supabase : SupabaseClient)
| DoClearError.

Definition action_of (t : Transition) : Async.t unit :=
  match t with
  | DoLogin supabase email password => login supabase email password
  | DoRegister supabase username email password =>
      register supabase username email password
  | DoLogout supabase => logout supabase
  | DoClearError => clearError
  end.

(** A transition run to completion. *)
Definition step (t : Transition) (s : AuthState) : AuthState :=
  store_after (action_of t) s.

(** The states the store can be in between completed transitions. *)
Inductive reachable : AuthState -> Prop :=
| reach_init : reachable initialState
| reach_step (t : Transition) (s : AuthState) :
    reachable s -> reachable (step t s).

(** [isAuthenticated] says whether there is a [user]. *)
Definition consistent (s : AuthState) : Prop :=
  isAuthenticated s = match user s with Some _ => true | None => false end.

(** ** Clients used in the examples *)

Definition no_metadata : UserMetadata :=
  {| md_username := JUndefined; md_role := JUndefined |}.

(** Every call succeeds; sign-in returns the identity [u], nobody is
    registered yet. *)
Definition accepting_client (u : AuthUser) : SupabaseClient :=
  {| signInWithPassword := fun _ _ =>
       Fulfilled {| data_user := Some u; auth_error := None |};
     selectUserByEmail := fun _ =>
       Fulfilled {| query_data := None;
                    query_error := Some (mkError "no rows returned") |};
     signUp := fun _ _ _ =>
       Fulfilled {| data_user := Some u; auth_error := None |};
     signOut := Fulfilled {| signout_error := None |} |}.

(** Every call reaches the provider and is refused. *)
Definition refusing_client : SupabaseClient :=
  {| signInWithPassword := fun _ _ =>
       Fulfilled {| data_user := None;
                    auth_error := Some (mkError "Invalid login credentials") |};
     selectUserByEmail := fun e =>
       Fulfilled {| query_data := Some {| row_email := e |};
                    query_error := None |};
     signUp := fun _ _ _ =>
       Fulfilled {| data_user := None;
                    auth_error := Some (mkError "User already registered") |};
     signOut :=
       Fulfilled {| signout_error := Some (mkError "session not found") |} |}.

(** Sign-in resolves without an error and without a user. *)
Definition userless_client : SupabaseClient :=
  {| signInWithPassword := fun _ _ =>
       Fulfilled {| data_user := None; auth_error := None |};
     selectUserByEmail := fun _ =>
       Fulfilled {| query_data := None; query_error := None |};
     signUp := fun _ _ _ =>
       Fulfilled {| data_user := None; auth_error := None |};
     signOut := Fulfilled {| signout_error := None |} |}.

Definition ana : AuthUser :=
  {| au_id := "1"; au_email := "a@b.com";
     user_metadata := {| md_username := JString "ana"; md_role := JUndefined |} |}.

Definition anonymous_identity : AuthUser :=
  {| au_id := "7"; au_email := "x@y.org"; user_metadata := no_metadata |}.

Definition ana_signed_in : AuthState :=
  {| user := Some {| id := "1"; username := JString "ana"; email := "a@b.com";
                     role := JString "user" |};
     isAuthenticated := true; isLoading := false; error := None |}.

(** ** Further vocabulary for the store *)

(** The response that neither [login] nor [register] handles: resolved,
    no [error], and [data.user] [null]. *)
Definition auth_userless (p : Settled AuthResponse) : bool :=
  match p with
  | Fulfilled r =>
      match auth_error r, data_user r with
      | None, None => true
      | _, _ => false
      end
  | Rejected _ => false
  end.

(** The look-up of [register] resolved and found no row. *)
Definition lookup_found_nothing (p : Settled QueryResponse) : bool :=
  match p with
  | Fulfilled q =>
      match query_data q with
      | None => true
      | Some _ => false
      end
  | Rejected _ => false
  end.

(** The [options.data] that [register] hands to [signUp]. *)
Definition signUp_metadata (username : string) : UserMetadata :=
  {| md_username := JString username; md_role := JString "user" |}.

(** A sequence of transitions, each run to completion before the next. *)
Definition run_all (ts : list Transition) (s : AuthState) : AuthState :=
  fold_left (fun s t => step t s) ts s.

Definition is_logout_or_clearError (t : Transition) : bool :=
  match t with
  | DoLogout _ | DoClearError => true
  | DoLogin _ _ _ | DoRegister _ _ _ _ => false
  end.

(** ** The [set] calls of an action, one by one *)

(** An action never reads the store: what it passes to [set], and in which
    order, is fixed by how its client calls settle.  Between two [await]s
    nothing else runs, so when several actions overlap, the store goes
    through the partial objects of all of them in some order that keeps the
    order of each. *)

Definition loading_patch : Partial :=
  {| set_user := None; set_isAuthenticated := None;
     set_isLoading := Some true; set_error := Some None |}.

Definition signed_in_patch (u : User) : Partial :=
  {| set_user := Some (Some u); set_isAuthenticated := Some true;
     set_isLoading := Some false; set_error := Some None |}.

Definition failed_patch (msg : string) : Partial :=
  {| set_user := Some None; set_isAuthenticated := Some false;
     set_isLoading := Some false; set_error := Some (Some msg) |}.

Definition signed_out_patch : Partial :=
  {| set_user := Some None; set_isAuthenticated := Some false;
     set_isLoading := None; set_error := Some None |}.

Definition error_patch (e : option string) : Partial :=
  {| set_user := None; set_isAuthenticated := None;
     set_isLoading := None; set_error := Some e |}.

Definition login_sets (supabase : SupabaseClient) (email password : string)
  : list Partial :=
  loading_patch ::
  match signInWithPassword supabase email password with
  | Rejected _ => [failed_patch login_error_message]
  | Fulfilled r =>
      match auth_error r with
      | Some _ => [failed_patch login_error_message]
      | None =>
          match data_user r with
          | Some data_user =>
              [signed_in_patch
                 {| id := au_id data_user;
                    email := au_email data_user;
                    username := js_or (md_username (user_metadata data_user))
                                      (JString (au_email data_user));
                    role := js_or (md_role (user_metadata data_user))
                                  (JString "user") |}]
          | None => []
          end
      end
  end.

Definition register_sets (supabase : SupabaseClient)
    (username email password : string) : list Partial :=
  loading_patch ::
  match selectUserByEmail supabase email with
  | Rejected e => [failed_patch (message e)]
  | Fulfilled q =>
      match query_data q with
      | Some _ => [failed_patch duplicate_account_message]
      | None =>
          match signUp supabase email password (signUp_metadata username) with
          | Rejected e => [failed_patch (message e)]
          | Fulfilled r =>
              match auth_error r with
              | Some e => [failed_patch (message e)]
              | None =>
                  match data_user r with
                  | Some data_user =>
                      [signed_in_patch
                         {| id := au_id data_user;
                            email := au_email data_user;
                            username := JString username;
                            role := JString "user" |}]
                  | None => []
                  end
              end
          end
      end
  end.

Definition logout_sets (supabase : SupabaseClient) : list Partial :=
  match signOut supabase with
  | Rejected e => [error_patch (Some (message e))]
  | Fulfilled r =>
      match signout_error r with
      | Some e => [error_patch (Some (message e))]
      | None => [signed_out_patch]
      end
  end.

Definition sets_of (t : Transition) : list Partial :=
  match t with
  | DoLogin supabase email password => login_sets supabase email password
  | DoRegister supabase username email password =>
      register_sets supabase username email password
  | DoLogout supabase => logout_sets supabase
  | DoClearError => [error_patch None]
  end.

(** The store after a sequence of [set]s. *)
Definition apply_sets (ps : list Partial) (s : AuthState) : AuthState :=
  fold_left (fun s p => merge p s) ps s.

(** [schedule] runs the sequences of [queues] to their ends, taking the next
    element of any one of them at each step. *)
Inductive interleaved {A : Type} : list (list A) -> list A -> Prop :=
| interleaved_done (queues : list (list A)) :
    Forall (fun q => q = []) queues -> interleaved queues []
| interleaved_next (before after : list (list A)) (x : A) (q schedule : list A) :
    interleaved (before ++ q :: after) schedule ->
    interleaved (before ++ (x :: q) :: after) (x :: schedule).

(** A partial object that writes [user] and [isAuthenticated] together and in
    agreement, or neither of them. *)
Definition writes_in_step (p : Partial) : bool :=
  match set_user p, set_isAuthenticated p with
  | None, None => true
  | Some (Some _), Some true => true
  | Some None, Some false => true
  | _, _ => false
  end.

(** The store while a [login] of [ana] is in flight. *)
Definition overlapping_schedule : list Partial :=
  [loading_patch; signed_out_patch;
   signed_in_patch {| id := "1"; username := JString "ana";
                      email := "a@b.com"; role := JString "user" |}].

(** ** Strings typed into the forms *)

(** A form field holds a string of UTF-16 code units.  The forms are modelled
    on the code units below 256, one [ascii] each; [String.length] is then
    the [length] of the JavaScript string. *)

(** White space and line terminators, as [\s] and [trim] take them: among the
    code units below 256 these are tab, line feed, vertical tab, form feed,
    carriage return, space and the no-break space. *)
Definition is_whitespace (c : ascii) : bool :=
  let n := nat_of_ascii c in
  (((9 <=? n) && (n <=? 13)) || (n =? 32) || (n =? 160))%nat.

(** ** Regular expressions, as far as the forms use them *)

Inductive RegExp : Type :=
| Never
| Empty
| CharClass (p : ascii -> bool)
| Seq (r1 r2 : RegExp)
| Alt (r1 r2 : RegExp)
| Star (r : RegExp).

(** [r+] *)
Definition Plus (r : RegExp) : RegExp := Seq r (Star r).

(** The strings a pattern matches from its first to its last character. *)
Inductive matches : RegExp -> list ascii -> Prop :=
| matches_empty : matches Empty []
| matches_class (p : ascii -> bool) (c : ascii) :
    p c = true -> matches (CharClass p) [c]
| matches_seq (r1 r2 : RegExp) (s1 s2 : list ascii) :
    matches r1 s1 -> matches r2 s2 -> matches (Seq r1 r2) (s1 ++ s2)
| matches_alt_l (r1 r2 : RegExp) (s : list ascii) :
    matches r1 s -> matches (Alt r1 r2) s
| matches_alt_r (r1 r2 : RegExp) (s : list ascii) :
    matches r2 s -> matches (Alt r1 r2) s
| matches_star_nil (r : RegExp) : matches (Star r) []
| matches_star_app (r : RegExp) (s1 s2 : list ascii) :
    matches r s1 -> matches (Star r) s2 -> matches (Star r) (s1 ++ s2).

Fixpoint nullable (r : RegExp) : bool :=
  match r with
  | Never => false
  | Empty => true
  | CharClass _ => false
  | Seq r1 r2 => nullable r1 && nullable r2
  | Alt r1 r2 => nullable r1 || nullable r2
  | Star _ => true
  end.

(** What is left of the pattern once the character [c] has been read. *)
Fixpoint derivative (c : ascii) (r : RegExp) : RegExp :=
  match r with
  | Never => Never
  | Empty => Never
  | CharClass p => if p c then Empty else Never
  | Seq r1 r2 =>
      if nullable r1
      then Alt (Seq (derivative c r1) r2) (derivative c r2)
      else Seq (derivative c r1) r2
  | Alt r1 r2 => Alt (derivative c r1) (derivative c r2)
  | Star r1 => Seq (derivative c r1) (Star r1)
  end.

(** [/^r$/.test(s)] *)
Definition regexp_test (r : RegExp) (s : list ascii) : bool :=
  nullable (fold_left (fun r c => derivative c r) s r).

(** [[^\s@]] *)
Definition not_space_or_at (c : ascii) : bool :=
  negb (is_whitespace c || Ascii.eqb c "@"%char).

(** [/^[^\s@]+@[^\s@]+\.[^\s@]+$/] *)
Definition emailRegex : RegExp :=
  Seq (Plus (CharClass not_space_or_at))
    (Seq (CharClass (Ascii.eqb "@"%char))
       (Seq (Plus (CharClass not_space_or_at))
          (Seq (CharClass (Ascii.eqb "."%char))
             (Plus (CharClass not_space_or_at))))).

(** [validateEmail], the same function in [LoginForm.tsx] and in
    [RegisterForm.tsx]. *)
Definition validateEmail (email : string) : bool :=
  regexp_test emailRegex (list_ascii_of_string email).

(** [String.prototype.trim] *)
Fixpoint trimStart (s : list ascii) : list ascii :=
  match s with
  | c :: s' => if is_whitespace c then trimStart s' else s
  | [] => []
  end.

Definition trim (s : string) : string :=
  string_of_list_ascii
    (rev (trimStart (rev (trimStart (list_ascii_of_string s))))).

(** [!s] for a string [s] *)
Definition js_not_string (s : string) : bool := String.eqb s "".

(** ** What an event handler has done when it returns *)

Record Handled (F : Type) : Type := mkHandled {
  form_after : F;                 (* the local state of the component *)
  auth_after : AuthState;         (* the store *)
  client_calls : list Call;       (* the calls made to the client *)
  navigations : list string;      (* the targets passed to [navigate] *)
  rejected : option JsError       (* what the handler threw, if it did *)
}.
Arguments mkHandled {F}.
Arguments form_after {F}.
Arguments auth_after {F}.
Arguments client_calls {F}.
Arguments navigations {F}.
Arguments rejected {F}.

(** ** The login form ([components/auth/LoginForm.tsx]) *)

Record LoginErrors : Type := mkLoginErrors {
  le_email : string;
  le_password : string
}.

(** The [useState] cells of [LoginForm]. *)
Record LoginFormState : Type := mkLoginFormState {
  lf_email : string;
  lf_password : string;
  lf_errors : LoginErrors;
  lf_resetEmailSent : bool
}.

Definition LoginForm_handleSubmit (supabase : SupabaseClient)
    (f : LoginFormState) (s : AuthState) : Handled LoginFormState :=
  let email := lf_email f in
  let password := lf_password f in
  let newErrors := {| le_email := ""; le_password := "" |} in
  let hasError := false in
  let '(newErrors, hasError) :=
    if js_not_string (trim email) then
      ({| le_email := "El email es requerido";
          le_password := le_password newErrors |}, true)
    else if negb (validateEmail email) then
      ({| le_email := "Por favor ingrese un email válido";
          le_password := le_password newErrors |}, true)
    else (newErrors, hasError) in
  let '(newErrors, hasError) :=
    if js_not_string password then
      ({| le_email := le_email newErrors;
          le_password := "La contraseña es requerida" |}, true)
    else (newErrors, hasError) in
  if hasError then
    {| form_after := {| lf_email := email; lf_password := password;
                        lf_errors := newErrors;
                        lf_resetEmailSent := lf_resetEmailSent f |};
       auth_after := s; client_calls := []; navigations := [];
       rejected := None |}
  else
    match run (login supabase email password) s with
    | (Normal _, w) =>
        {| form_after := f; auth_after := store w; client_calls := calls w;
           navigations := ["/dashboard"]; rejected := None |}
    | (Throw _, w) =>
        {| form_after := f; auth_after := store w; client_calls := calls w;
           navigations := []; rejected := None |}
    end.

(** [{ error }] of [resetPasswordForEmail]. *)
Record ResetResponse : Type := mkResetResponse {
  reset_error : option JsError
}.

Inductive ResetCall : Type :=
| CallResetPasswordForEmail (email redirectTo : string).

Definition reset_failure_message : string :=
  "Error al enviar el email de restablecimiento. Por favor intente nuevamente.".

(** [handlePasswordReset]; [origin] is [window.location.origin].  It returns
    the state of the form and the calls it made. *)
Definition LoginForm_handlePasswordReset
    (resetPasswordForEmail : string -> string -> Settled ResetResponse)
    (origin : string) (f : LoginFormState) : LoginFormState * list ResetCall :=
  let email := lf_email f in
  let errors := lf_errors f in
  let with_errors (e : LoginErrors) :=
    {| lf_email := email; lf_password := lf_password f; lf_errors := e;
       lf_resetEmailSent := lf_resetEmailSent f |} in
  if js_not_string (trim email) then
    (with_errors
       {| le_email := "Por favor ingrese su email para restablecer la contraseña";
          le_password := le_password errors |}, [])
  else if negb (validateEmail email) then
    (with_errors
       {| le_email := "Por favor ingrese un email válido";
          le_password := le_password errors |}, [])
  else
    let redirectTo := origin ++ "/reset-password" in
    let made := [CallResetPasswordForEmail email redirectTo] in
    let failed :=
      (with_errors {| le_email := reset_failure_message;
                      le_password := le_password errors |}, made) in
    match resetPasswordForEmail email redirectTo with
    | Rejected _ => failed
    | Fulfilled r =>
        match reset_error r with
        | Some _ => failed
        | None =>
            ({| lf_email := email; lf_password := lf_password f;
                lf_errors := {| le_email := ""; le_password := "" |};
                lf_resetEmailSent := true |}, made)
        end
    end.

(** ** The registration form ([RegisterForm]) *)

Record RegisterErrors : Type := mkRegisterErrors {
  re_username : string;
  re_email : string;
  re_password : string;
  re_confirmPassword : string
}.

Record RegisterFormState : Type := mkRegisterFormState {
  rf_username : string;
  rf_email : string;
  rf_password : string;
  rf_confirmPassword : string;
  rf_errors : RegisterErrors
}.

Definition RegisterForm_handleSubmit (supabase : SupabaseClient)
    (f : RegisterFormState) (s : AuthState) : Handled RegisterFormState :=
  let username := rf_username f in
  let email := rf_email f in
  let password := rf_password f in
  let confirmPassword := rf_confirmPassword f in
  let newErrors := {| re_username := ""; re_email := ""; re_password := "";
                      re_confirmPassword := "" |} in
  let hasError := false in
  let '(newErrors, hasError) :=
    if js_not_string (trim username) then
      ({| re_username := "El nombre de usuario es requerido";
          re_email := re_email newErrors;
          re_password := re_password newErrors;
          re_confirmPassword := re_confirmPassword newErrors |}, true)
    else (newErrors, hasError) in
  let '(newErrors, hasError) :=
    if js_not_string (trim email) then
      ({| re_username := re_username newErrors;
          re_email := "El email es requerido";
          re_password := re_password newErrors;
          re_confirmPassword := re_confirmPassword newErrors |}, true)
    else if negb (validateEmail email) then
      ({| re_username := re_username newErrors;
          re_email := "Por favor ingrese un email válido";
          re_password := re_password newErrors;
          re_confirmPassword := re_confirmPassword newErrors |}, true)
    else (newErrors, hasError) in
  let '(newErrors, hasError) :=
    if js_not_string password then
      ({| re_username := re_username newErrors;
          re_email := re_email newErrors;
          re_password := "La contraseña es requerida";
          re_confirmPassword := re_confirmPassword newErrors |}, true)
    else if (String.length password <? 6)%nat then
      ({| re_username := re_username newErrors;
          re_email := re_email newErrors;
          re_password := "La contraseña debe tener al menos 6 caracteres";
          re_confirmPassword := re_confirmPassword newErrors |}, true)
    else (newErrors, hasError) in
  let '(newErrors, hasError) :=
    if negb (String.eqb password confirmPassword) then
      ({| re_username := re_username newErrors;
          re_email := re_email newErrors;
          re_password := re_password newErrors;
          re_confirmPassword := "Las contraseñas no coinciden" |}, true)
    else (newErrors, hasError) in
  if hasError then
    {| form_after := {| rf_username := username; rf_email := email;
                        rf_password := password;
                        rf_confirmPassword := confirmPassword;
                        rf_errors := newErrors |};
       auth_after := s; client_calls := []; navigations := [];
       rejected := None |}
  else
    match run (register supabase username email password) s with
    | (Normal _, w) =>
        {| form_after := f; auth_after := store w; client_calls := calls w;
           navigations := ["/dashboard"]; rejected := None |}
    | (Throw _, w) =>
        {| form_after := f; auth_after := store w; client_calls := calls w;
           navigations := []; rejected := None |}
    end.

(** ** The layout ([components/layout/MainLayout.tsx]) *)

(** [handleLogout]: [await logout(); navigate('/login')], with no [try]
    around it. *)
Definition MainLayout_handleLogout (supabase : SupabaseClient) (s : AuthState)
  : Handled unit :=
  match run (logout supabase) s with
  | (Normal _, w) =>
      {| form_after := tt; auth_after := store w; client_calls := calls w;
         navigations := ["/login"]; rejected := None |}
  | (Throw e, w) =>
      {| form_after := tt; auth_after := store w; client_calls := calls w;
         navigations := []; rejected := Some e |}
  end.

(** ** Forms used in the examples *)

Definition filled_login_form : LoginFormState :=
  {| lf_email := "a@b.com"; lf_password := "secret";
     lf_errors := {| le_email := ""; le_password := "" |};
     lf_resetEmailSent := false |}.

Definition filled_register_form : RegisterFormState :=
  {| rf_username := "bob"; rf_email := "b@c.com"; rf_password := "pw1234";
     rf_confirmPassword := "pw1234";
     rf_errors := {| re_username := ""; re_email := ""; re_password := "";
                     re_confirmPassword := "" |} |}.

(** What [resetPasswordForEmail] makes the [try] block throw, if anything. *)
Definition reset_failure (p : Settled ResetResponse) : option JsError :=
  match p with
  | Rejected e => Some e
  | Fulfilled r => reset_error r
  end.

(** The four checks of [RegisterForm]'s [handleSubmit], all passed. *)
Definition register_form_passes (f : RegisterFormState) : bool :=
  negb (js_not_string (trim (rf_username f)))
  && validateEmail (rf_email f)
  && (6 <=? String.length (rf_password f))%nat
  && String.eqb (rf_password f) (rf_confirmPassword f).

Definition no_register_errors : RegisterErrors :=
  {| re_username := ""; re_email := ""; re_password := "";
     re_confirmPassword := "" |}.

(** ** The input field ([components/common/Input.tsx]) *)


(** [toLowerCase] on one code unit below 256: the letters [A] to [Z] and the
    capital letters of Latin-1 (from U+00C0 to U+00DE, the multiplication
    sign U+00D7 apart) move up by 32; everything else stays. *)
Definition toLowerCase_unit (c : ascii) : ascii :=
  let n := nat_of_ascii c in
  if (((65 <=? n) && (n <=? 90))
      || ((192 <=? n) && (n <=? 222) && negb (n =? 215)))%nat
  then ascii_of_nat (n + 32)
  else c.



(** A store left loading by a sign-in that resolved without a user. *)
Definition stuck_loading : AuthState :=
  {| user := None; isAuthenticated := false; isLoading := true; error := None |}.

(** Every call is rejected before it reaches the provider. *)
Definition offline_client : SupabaseClient :=
  {| signInWithPassword := fun _ _ => Rejected (mkError "Failed to fetch");
     selectUserByEmail := fun _ => Rejected (mkError "Failed to fetch");
     signUp := fun _ _ _ => Rejected (mkError "Failed to fetch");
     signOut := Rejected (mkError "Failed to fetch") |}.

(** Nobody is registered yet, and [signUp] is refused. *)
Definition closed_signUp_client : SupabaseClient :=
  {| signInWithPassword := fun _ _ =>
       Fulfilled {| data_user := None;
                    auth_error := Some (mkError "Invalid login credentials") |};
     selectUserByEmail := fun _ =>
       Fulfilled {| query_data := None;
                    query_error := Some (mkError "no rows returned") |};
     signUp := fun _ _ _ =>
       Fulfilled {| data_user := None;
                    auth_error := Some (mkError "Signups not allowed") |};
     signOut := Fulfilled {| signout_error := None |} |}.

Definition empty_username_identity : AuthUser :=
  {| au_id := "9"; au_email := "n@m.io";
     user_metadata := {| md_username := JString ""; md_role := JString "admin" |} |}.

Definition failing_reset (email redirectTo : string) : Settled ResetResponse :=
  Fulfilled {| reset_error := Some (mkError "rate limit exceeded") |}.

(** * Properties *)

(** Unfolds an action down to the store it leaves. *)
Ltac exec :=
  unfold step, action_of, store_after, calls_of, run,
    login, register, logout, clearError,
    bind, try_catch, await, set, throw_if_error, throw, ret;
  cbn.

Ltac exec_with H := exec; rewrite H; cbn.

(** ** The scenarios of the test suite and of the specification *)

Example login_scenario :
  run (login (accepting_client ana) "a@b.com" "secret") initialState
  = (Normal tt, {| store := ana_signed_in;
                   calls := [CallSignInWithPassword "a@b.com" "secret"] |}).
Proof. reflexivity. Qed.

Example register_duplicate_scenario :
  run (register refusing_client "bob" "b@c.com" "pw1234") initialState
  = (Normal tt,
     {| store := {| user := None; isAuthenticated := false; isLoading := false;
                    error := Some duplicate_account_message |};
        calls := [CallSelectUserByEmail "b@c.com"] |}).
Proof. reflexivity. Qed.

Example login_refused_scenario :
  store_after (login refusing_client "wrong@email.com" "wrongpass") initialState
  = {| user := None; isAuthenticated := false; isLoading := false;
       error := Some login_error_message |}.
Proof. reflexivity. Qed.

(** ** No action throws past the store *)

Lemma login_settles supabase email password s :
  fst (run (login supabase email password) s) = Normal tt.
Proof.
  exec. destruct (signInWithPassword supabase email password) as [[[u|] [e|]]|e];
    reflexivity.
Qed.

Lemma register_settles supabase username email password s :
  fst (run (register supabase username email password) s) = Normal tt.
Proof.
  exec. destruct (selectUserByEmail supabase email) as [[[row|] qe]|e]; cbn;
    try reflexivity.
  destruct (signUp supabase email password _) as [[[u|] [e|]]|e]; reflexivity.
Qed.

Lemma logout_settles supabase s :
  fst (run (logout supabase) s) = Normal tt.
Proof.
  exec. destruct (signOut supabase) as [[[e|]]|e]; reflexivity.
Qed.


(** ** [clearError] *)

(** C8: [clearError] sets [error] to [null], leaves [user], [isAuthenticated]
    and [isLoading] as they were, and calling it twice gives the same store
    as calling it once. *)
Theorem clearError_only_clears_error (s : AuthState) :
  let s' := store_after clearError s in
  error s' = None
  /\ user s' = user s
  /\ isAuthenticated s' = isAuthenticated s
  /\ isLoading s' = isLoading s
  /\ store_after clearError s' = s'.
Proof. repeat split. Qed.

(** ** [login] *)

Section Login.

Variable supabase : SupabaseClient.
Variables addr password : string.
Variable s : AuthState.

(** C3: whatever makes the sign-in fail (a rejected promise or a response
    carrying an error, with any error object), [login] ends with no user,
    not authenticated, not loading, and [error] set to the one fixed,
    non-empty message of the store, in which nothing of the failure
    appears. *)
Theorem login_failure_is_generic (e : JsError) :
  auth_failure (signInWithPassword supabase addr password) = Some e ->
  store_after (login supabase addr password) s
  = {| user := None; isAuthenticated := false; isLoading := false;
       error := Some login_error_message |}
  /\ login_error_message <> "".
Proof.
  intros Hfail. split; [|discriminate].
  exec. destruct (signInWithPassword supabase addr password) as [r|e'];
    cbn in *; [rewrite Hfail|]; reflexivity.
Qed.

(** C6: when the sign-in resolves without error and with a user record,
    [login] ends authenticated, not loading, without error, and with a
    [user] whose [id] and [email] are the record's, whose [username] is the
    metadata's [username] (any non-empty one is taken as it is) and whose
    [role] is the metadata's, or ['user'] when the metadata has none. *)
Theorem login_success_populates_user (r : AuthResponse) (u : AuthUser) :
  signInWithPassword supabase addr password = Fulfilled r ->
  auth_error r = None ->
  data_user r = Some u ->
  let md := user_metadata u in
  exists currentUser,
    store_after (login supabase addr password) s
    = {| user := Some currentUser; isAuthenticated := true;
         isLoading := false; error := None |}
    /\ id currentUser = au_id u
    /\ email currentUser = au_email u
    /\ username currentUser = js_or (md_username md) (JString (au_email u))
    /\ (forall name, md_username md = JString name -> name <> "" ->
          username currentUser = JString name)
    /\ role currentUser = js_or (md_role md) (JString "user")
    /\ (md_role md = JUndefined -> role currentUser = JString "user")
    /\ (truthy (md_role md) = true -> role currentUser = md_role md).
Proof.
  intros Hr Herr Hu md.
  eexists. split.
  - exec_with Hr. rewrite Herr. cbn. rewrite Hu. cbn. reflexivity.
  - cbn. repeat split.
    + intros name Hname Hne. fold md. rewrite Hname. unfold js_or. cbn.
      destruct (String.eqb_spec name ""); [contradiction|reflexivity].
    + intros Hrole. fold md. rewrite Hrole. reflexivity.
    + intros Hrole. fold md. unfold js_or. rewrite Hrole. reflexivity.
Qed.

(** C9: when the sign-in resolves without error but with a [null] user,
    [login] ends with [isLoading] still [true] and [error] [null], and with
    [user] and [isAuthenticated] as they were before the call. *)
Theorem login_without_user_stays_loading (r : AuthResponse) :
  signInWithPassword supabase addr password = Fulfilled r ->
  auth_error r = None ->
  data_user r = None ->
  store_after (login supabase addr password) s
  = {| user := user s; isAuthenticated := isAuthenticated s;
       isLoading := true; error := None |}.
Proof.
  intros Hr Herr Hu.
  exec_with Hr. rewrite Herr. cbn. rewrite Hu. reflexivity.
Qed.

(** C10: on a successful sign-in whose metadata has no [username], the
    [username] of the stored user is the e-mail address of the account. *)
Theorem login_username_falls_back_to_email (r : AuthResponse) (u : AuthUser) :
  signInWithPassword supabase addr password = Fulfilled r ->
  auth_error r = None ->
  data_user r = Some u ->
  md_username (user_metadata u) = JUndefined ->
  exists currentUser,
    user (store_after (login supabase addr password) s) = Some currentUser
    /\ username currentUser = JString (au_email u)
    /\ email currentUser = au_email u.
Proof.
  intros Hr Herr Hu Hname.
  eexists. split.
  - exec_with Hr. rewrite Herr. cbn. rewrite Hu. cbn. reflexivity.
  - cbn. rewrite Hname. split; reflexivity.
Qed.

End Login.

(** ** [register] *)

Section Register.

Variable supabase : SupabaseClient.
Variables name addr password : string.
Variable s : AuthState.

(** C4: when the look-up of the e-mail address in [users] returns a row,
    [register] never calls [signUp] (the look-up is the only call it makes)
    and ends with no user, not authenticated, not loading, and [error] set
    to the message for an account that already exists. *)
Theorem register_existing_account_is_refused
    (q : QueryResponse) (existingUser : UserRow) :
  selectUserByEmail supabase addr = Fulfilled q ->
  query_data q = Some existingUser ->
  existsb is_signUp (calls_of (register supabase name addr password) s) = false
  /\ calls_of (register supabase name addr password) s
     = [CallSelectUserByEmail addr]
  /\ store_after (register supabase name addr password) s
     = {| user := None; isAuthenticated := false; isLoading := false;
          error := Some duplicate_account_message |}.
Proof.
  intros Hq Hrow.
  assert (Hcalls : calls_of (register supabase name addr password) s
                   = [CallSelectUserByEmail addr]).
  { exec_with Hq. rewrite Hrow. reflexivity. }
  rewrite Hcalls. repeat split.
  exec_with Hq. rewrite Hrow. reflexivity.
Qed.

(** C7: when the look-up finds no row and [signUp] resolves without error
    and with a user record, [register] ends authenticated, not loading,
    without error, and with a [user] whose [username] is the [username]
    argument of the call, whatever metadata the record carries, and whose
    [role] is ['user']. *)
Theorem register_success_uses_local_username
    (q : QueryResponse) (r : AuthResponse) (u : AuthUser) :
  selectUserByEmail supabase addr = Fulfilled q ->
  query_data q = None ->
  signUp supabase addr password
    {| md_username := JString name; md_role := JString "user" |}
  = Fulfilled r ->
  auth_error r = None ->
  data_user r = Some u ->
  store_after (register supabase name addr password) s
  = {| user := Some {| id := au_id u; username := JString name;
                       email := au_email u; role := JString "user" |};
       isAuthenticated := true; isLoading := false; error := None |}.
Proof.
  intros Hq Hrow Hr Herr Hu.
  exec_with Hq. rewrite Hrow. cbn. rewrite Hr. cbn.
  rewrite Herr. cbn. rewrite Hu. reflexivity.
Qed.

End Register.

(** ** [logout] *)

Section Logout.

Variable supabase : SupabaseClient.
Variable s : AuthState.

(** C1, as the store has it: a [logout] whose [signOut] succeeds ends with
    no user, not authenticated and without error, and leaves [isLoading] as
    it was; the store it leaves is the initial one exactly when it was not
    loading before. *)
Theorem logout_success_clears_session :
  signOut_failure (signOut supabase) = None ->
  store_after (logout supabase) s
  = {| user := None; isAuthenticated := false;
       isLoading := isLoading s; error := None |}
  /\ (store_after (logout supabase) s = initialState <-> isLoading s = false).
Proof.
  intros Hok.
  assert (Hs : store_after (logout supabase) s
               = {| user := None; isAuthenticated := false;
                    isLoading := isLoading s; error := None |}).
  { exec. destruct (signOut supabase) as [r|e]; cbn in *; [|discriminate].
    rewrite Hok. reflexivity. }
  rewrite Hs. split; [reflexivity|]. unfold initialState. split.
  - intros H. now inversion H.
  - intros H. now rewrite H.
Qed.

(** C5: a [logout] whose [signOut] fails (a rejected promise or a response
    carrying an error) leaves [user] and [isAuthenticated] as they were and
    changes only [error], which becomes the message of the failure. *)
Theorem logout_failure_only_sets_error (e : JsError) :
  signOut_failure (signOut supabase) = Some e ->
  store_after (logout supabase) s
  = {| user := user s; isAuthenticated := isAuthenticated s;
       isLoading := isLoading s; error := Some (message e) |}.
Proof.
  intros Hfail. exec.
  destruct (signOut supabase) as [r|e']; cbn in *.
  - rewrite Hfail. reflexivity.
  - now inversion Hfail.
Qed.

End Logout.

(** ** The invariant of the store *)

Lemma initialState_consistent : consistent initialState.
Proof. reflexivity. Qed.

Lemma login_consistent supabase addr password s :
  consistent s -> consistent (store_after (login supabase addr password) s).
Proof.
  unfold consistent. intros Hs. exec.
  destruct (signInWithPassword supabase addr password) as [[[u|] [e|]]|e];
    cbn; auto.
Qed.

Lemma register_consistent supabase name addr password s :
  consistent s -> consistent (store_after (register supabase name addr password) s).
Proof.
  unfold consistent. intros Hs. exec.
  destruct (selectUserByEmail supabase addr) as [[[row|] qe]|e]; cbn; auto.
  destruct (signUp supabase addr password _) as [[[u|] [e|]]|e]; cbn; auto.
Qed.

Lemma logout_consistent supabase s :
  consistent s -> consistent (store_after (logout supabase) s).
Proof.
  unfold consistent. intros Hs. exec.
  destruct (signOut supabase) as [[[e|]]|e]; cbn; auto.
Qed.

Lemma clearError_consistent s :
  consistent s -> consistent (store_after clearError s).
Proof. auto. Qed.

Lemma step_consistent (t : Transition) (s : AuthState) :
  consistent s -> consistent (step t s).
Proof.
  destruct t; unfold step; cbn [action_of];
    auto using login_consistent, register_consistent, logout_consistent,
               clearError_consistent.
Qed.

(** C2: in every store reached from the initial one by completed calls of
    [login], [register], [logout] and [clearError], [isAuthenticated] is
    [true] exactly when [user] is not [null]. *)
Theorem reachable_consistent (s : AuthState) :
  reachable s ->
  isAuthenticated s = match user s with Some _ => true | None => false end.
Proof.
  intros Hreach. change (consistent s).
  induction Hreach as [|t s _ IH].
  - exact initialState_consistent.
  - now apply step_consistent.
Qed.

(** ** The theorems at concrete calls *)

Lemma login_failure_is_generic_witness :
  auth_failure (signInWithPassword refusing_client "wrong@email.com" "wrongpass")
  = Some (mkError "Invalid login credentials")
  /\ (store_after (login refusing_client "wrong@email.com" "wrongpass")
        ana_signed_in
      = {| user := None; isAuthenticated := false; isLoading := false;
           error := Some login_error_message |}
      /\ login_error_message <> "").
Proof.
  split; [reflexivity|].
  apply (login_failure_is_generic refusing_client "wrong@email.com" "wrongpass"
           ana_signed_in (mkError "Invalid login credentials")).
  reflexivity.
Defined.

Lemma login_success_populates_user_witness :
  exists currentUser,
    store_after (login (accepting_client ana) "a@b.com" "secret") initialState
    = {| user := Some currentUser; isAuthenticated := true;
         isLoading := false; error := None |}
    /\ id currentUser = "1"
    /\ email currentUser = "a@b.com"
    /\ username currentUser = js_or (JString "ana") (JString "a@b.com")
    /\ (forall name, JString "ana" = JString name -> name <> "" ->
          username currentUser = JString name)
    /\ role currentUser = js_or JUndefined (JString "user")
    /\ (JUndefined = JUndefined -> role currentUser = JString "user")
    /\ (truthy JUndefined = true -> role currentUser = JUndefined).
Proof.
  apply (login_success_populates_user (accepting_client ana) "a@b.com"
           "secret" initialState
           {| data_user := Some ana; auth_error := None |} ana);
    reflexivity.
Defined.

Lemma login_without_user_stays_loading_witness :
  store_after (login userless_client "a@b.com" "secret") ana_signed_in
  = {| user := user ana_signed_in; isAuthenticated := true;
       isLoading := true; error := None |}.
Proof.
  apply (login_without_user_stays_loading userless_client "a@b.com" "secret"
           ana_signed_in {| data_user := None; auth_error := None |});
    reflexivity.
Defined.

Lemma login_username_falls_back_to_email_witness :
  exists currentUser,
    user (store_after (login (accepting_client anonymous_identity)
                         "x@y.org" "secret") initialState)
    = Some currentUser
    /\ username currentUser = JString "x@y.org"
    /\ email currentUser = "x@y.org".
Proof.
  apply (login_username_falls_back_to_email (accepting_client anonymous_identity)
           "x@y.org" "secret" initialState
           {| data_user := Some anonymous_identity; auth_error := None |}
           anonymous_identity);
    reflexivity.
Defined.

Lemma register_existing_account_is_refused_witness :
  existsb is_signUp
    (calls_of (register refusing_client "bob" "b@c.com" "pw1234") initialState)
  = false
  /\ calls_of (register refusing_client "bob" "b@c.com" "pw1234") initialState
     = [CallSelectUserByEmail "b@c.com"]
  /\ store_after (register refusing_client "bob" "b@c.com" "pw1234") initialState
     = {| user := None; isAuthenticated := false; isLoading := false;
          error := Some duplicate_account_message |}.
Proof.
  apply (register_existing_account_is_refused refusing_client "bob" "b@c.com"
           "pw1234" initialState
           {| query_data := Some {| row_email := "b@c.com" |};
              query_error := None |}
           {| row_email := "b@c.com" |});
    reflexivity.
Defined.

Lemma register_success_uses_local_username_witness :
  store_after (register (accepting_client ana) "bob" "a@b.com" "pw1234")
    initialState
  = {| user := Some {| id := "1"; username := JString "bob";
                       email := "a@b.com"; role := JString "user" |};
       isAuthenticated := true; isLoading := false; error := None |}.
Proof.
  apply (register_success_uses_local_username (accepting_client ana) "bob"
           "a@b.com" "pw1234" initialState
           {| query_data := None;
              query_error := Some (mkError "no rows returned") |}
           {| data_user := Some ana; auth_error := None |} ana);
    reflexivity.
Defined.

Lemma logout_success_clears_session_witness :
  signOut_failure (signOut (accepting_client ana)) = None
  /\ store_after (logout (accepting_client ana)) ana_signed_in = initialState.
Proof.
  split; [reflexivity|].
  apply (logout_success_clears_session (accepting_client ana) ana_signed_in
           eq_refl).
  reflexivity.
Defined.

Lemma logout_failure_only_sets_error_witness :
  store_after (logout refusing_client) ana_signed_in
  = {| user := user ana_signed_in; isAuthenticated := true;
       isLoading := false; error := Some "session not found" |}.
Proof.
  apply (logout_failure_only_sets_error refusing_client ana_signed_in
           (mkError "session not found")).
  reflexivity.
Defined.

Lemma reachable_consistent_witness :
  let s := step (DoLogout refusing_client)
             (step (DoLogin (accepting_client ana) "a@b.com" "secret")
                initialState) in
  reachable s
  /\ isAuthenticated s = match user s with Some _ => true | None => false end.
Proof.
  intros s.
  assert (Hreach : reachable s) by (repeat constructor).
  split; [exact Hreach|].
  exact (reachable_consistent s Hreach).
Defined.

(** ** Where [logout] does not give back the initial store *)

(** The store left by a [login] whose sign-in resolved without a user is
    still loading; a [logout] that succeeds from there keeps it loading, so
    the store it leaves is not the initial one. *)
Lemma logout_success_keeps_loading :
  let s := step (DoLogin userless_client "a@b.com" "secret") initialState in
  reachable s
  /\ signOut_failure (signOut userless_client) = None
  /\ isLoading (store_after (logout userless_client) s) = true
  /\ store_after (logout userless_client) s <> initialState.
Proof.
  intros s. split; [repeat constructor|].
  split; [reflexivity|]. split; [reflexivity|]. discriminate.
Qed.

(** * Further properties of the store *)

(** ** What [register] does beyond the two cases above *)

Section RegisterFailures.

Variable supabase : SupabaseClient.
Variables name addr password : string.
Variable s : AuthState.

(** When the look-up finds no row and [signUp] fails (a rejected promise or a
    response carrying an error), [register] ends with no user, not
    authenticated, not loading, and [error] is the message of that failure
    as the provider gave it. *)
Theorem register_signUp_failure_shows_message (e : JsError) :
  lookup_found_nothing (selectUserByEmail supabase addr) = true ->
  auth_failure (signUp supabase addr password (signUp_metadata name)) = Some e ->
  store_after (register supabase name addr password) s
  = {| user := None; isAuthenticated := false; isLoading := false;
       error := Some (message e) |}.
Proof.
  intros Hlookup Hfail. exec. unfold signUp_metadata in Hfail.
  destruct (selectUserByEmail supabase addr) as [[[row|] qe]|qe];
    try discriminate; cbn.
  destruct (signUp supabase addr password _) as [r|e']; cbn in *.
  - rewrite Hfail. reflexivity.
  - now inversion Hfail.
Qed.

(** When the promise of the look-up itself is rejected, [register] stops
    there: [signUp] is not called, and the store ends with no user, not
    authenticated, not loading, and the message of the rejection as
    [error]. *)
Theorem register_lookup_rejected_stops (e : JsError) :
  selectUserByEmail supabase addr = Rejected e ->
  calls_of (register supabase name addr password) s
  = [CallSelectUserByEmail addr]
  /\ store_after (register supabase name addr password) s
     = {| user := None; isAuthenticated := false; isLoading := false;
          error := Some (message e) |}.
Proof.
  intros Hq. split; exec_with Hq; reflexivity.
Qed.

(** When the look-up finds no row, [register] makes exactly two calls, the
    look-up and then [signUp] with the e-mail address and password it was
    given and with the metadata [{ username, role: 'user' }], however
    [signUp] settles. *)
Theorem register_signUp_carries_metadata :
  lookup_found_nothing (selectUserByEmail supabase addr) = true ->
  calls_of (register supabase name addr password) s
  = [CallSelectUserByEmail addr;
     CallSignUp addr password
       {| md_username := JString name; md_role := JString "user" |}].
Proof.
  intros Hlookup. exec.
  destruct (selectUserByEmail supabase addr) as [[[row|] qe]|qe];
    try discriminate; cbn.
  destruct (signUp supabase addr password _) as [[[u|] [e|]]|e]; reflexivity.
Qed.


End RegisterFailures.

(** ** What [login] does beyond the cases above *)

Section LoginMore.

Variable supabase : SupabaseClient.
Variables addr password : string.

(** [login] leaves the store loading exactly when the sign-in resolved with
    neither an error nor a user. *)
Theorem login_loading_iff_userless (s : AuthState) :
  isLoading (store_after (login supabase addr password) s) = true
  <-> auth_userless (signInWithPassword supabase addr password) = true.
Proof.
  exec.
  destruct (signInWithPassword supabase addr password) as [[[u|] [e|]]|e]; cbn;
    split; try discriminate; auto.
Qed.

(** Unless the sign-in resolved with neither an error nor a user, the store
    [login] leaves does not depend on the store it started from: nothing of
    an earlier session or error survives. *)
Theorem login_forgets_prior_store (s1 s2 : AuthState) :
  auth_userless (signInWithPassword supabase addr password) = false ->
  store_after (login supabase addr password) s1
  = store_after (login supabase addr password) s2.
Proof.
  exec.
  destruct (signInWithPassword supabase addr password) as [[[u|] [e|]]|e]; cbn;
    try discriminate; reflexivity.
Qed.

(** On a successful sign-in whose metadata [username] is falsy in any way
    (absent, [null], the empty string, [0], [false]), the stored [username]
    is the e-mail address of the account. *)
Theorem login_falsy_username_falls_back
    (s : AuthState) (r : AuthResponse) (u : AuthUser) :
  signInWithPassword supabase addr password = Fulfilled r ->
  auth_error r = None ->
  data_user r = Some u ->
  truthy (md_username (user_metadata u)) = false ->
  exists currentUser,
    user (store_after (login supabase addr password) s) = Some currentUser
    /\ username currentUser = JString (au_email u).
Proof.
  intros Hr Herr Hu Hname. eexists. split.
  - exec_with Hr. rewrite Herr. cbn. rewrite Hu. cbn. reflexivity.
  - cbn. unfold js_or. rewrite Hname. reflexivity.
Qed.

(** A failed [login] followed by [clearError] leaves exactly the initial
    store, whatever the store was before. *)
Theorem failed_login_then_clearError (s : AuthState) (e : JsError) :
  auth_failure (signInWithPassword supabase addr password) = Some e ->
  store_after clearError (store_after (login supabase addr password) s)
  = initialState.
Proof.
  intros Hfail. exec.
  destruct (signInWithPassword supabase addr password) as [r|e']; cbn in *;
    [rewrite Hfail|]; reflexivity.
Qed.

(** A [login] that signs a user in, followed by a [logout] whose [signOut]
    succeeds, leaves exactly the initial store, whatever the store was
    before the [login]. *)
Theorem login_then_logout_round_trip
    (supabase' : SupabaseClient) (s : AuthState) (r : AuthResponse) (u : AuthUser) :
  signInWithPassword supabase addr password = Fulfilled r ->
  auth_error r = None ->
  data_user r = Some u ->
  signOut_failure (signOut supabase') = None ->
  store_after (logout supabase') (store_after (login supabase addr password) s)
  = initialState.
Proof.
  intros Hr Herr Hu Hout.
  unfold store_after at 2. exec_with Hr. rewrite Herr. cbn. rewrite Hu. cbn.
  exec. destruct (signOut supabase') as [r'|e']; cbn in *; [|discriminate].
  rewrite Hout. reflexivity.
Qed.

End LoginMore.

(** ** Every action settles *)


(** [login] makes exactly one call to the client, [signInWithPassword] with
    the e-mail address and password it was given; [logout] makes exactly one,
    [signOut]; [clearError] makes none.  This holds however the calls
    settle. *)
Theorem calls_of_login_logout_clearError
    (supabase : SupabaseClient) (addr password : string) (s : AuthState) :
  calls_of (login supabase addr password) s
  = [CallSignInWithPassword addr password]
  /\ calls_of (logout supabase) s = [CallSignOut]
  /\ calls_of clearError s = [].
Proof.
  repeat split.
  - exec. destruct (signInWithPassword supabase addr password)
      as [[[u|] [e|]]|e]; reflexivity.
  - exec. destruct (signOut supabase) as [[[e|]]|e]; reflexivity.
Qed.

(** ** More invariants of completed runs *)

Lemma js_or_default_truthy (v : JsValue) (d : string) :
  d <> "" -> truthy (js_or v (JString d)) = true.
Proof.
  intros Hd. unfold js_or. destruct (truthy v) eqn:Hv; [exact Hv|].
  cbn. destruct (String.eqb_spec d ""); [contradiction|reflexivity].
Qed.

Lemma step_keeps_role (t : Transition) (s : AuthState) :
  (forall u, user s = Some u -> truthy (role u) = true) ->
  forall u, user (step t s) = Some u -> truthy (role u) = true.
Proof.
  intros Hs u. destruct t as [sb addr pw|sb name addr pw|sb|]; exec.
  - destruct (signInWithPassword sb addr pw) as [[[au|] [e|]]|e]; cbn;
      try discriminate; auto.
    intros H. inversion H. cbn. apply js_or_default_truthy. discriminate.
  - destruct (selectUserByEmail sb addr) as [[[row|] qe]|e]; cbn;
      try discriminate.
    destruct (signUp sb addr pw _) as [[[au|] [e|]]|e]; cbn;
      try discriminate; auto.
    intros H. inversion H. reflexivity.
  - destruct (signOut sb) as [[[e|]]|e]; cbn; try discriminate; auto.
  - auto.
Qed.

(** In every store reached from the initial one by completed transitions, a
    stored user has a truthy [role]: it is never absent, [null] or the empty
    string. *)
Theorem reachable_user_has_role (s : AuthState) (u : User) :
  reachable s -> user s = Some u -> truthy (role u) = true.
Proof.
  intros Hreach. revert u.
  induction Hreach as [|t s _ IH].
  - discriminate.
  - now apply step_keeps_role.
Qed.

(** However many [logout] and [clearError] calls are run, and however the
    sign-outs settle, [isLoading] stays what it was: a store left loading is
    only ever released by a [login] or a [register]. *)
Theorem logout_and_clearError_keep_loading (ts : list Transition) (s : AuthState) :
  forallb is_logout_or_clearError ts = true ->
  isLoading (run_all ts s) = isLoading s.
Proof.
  unfold run_all. revert s.
  induction ts as [|t ts IH]; intros s Hts; [reflexivity|].
  cbn in Hts. apply andb_prop in Hts as [Ht Hts].
  cbn [fold_left]. rewrite (IH _ Hts).
  destruct t as [sb addr pw|sb name addr pw|sb|]; try discriminate.
  - exec. destruct (signOut sb) as [[[e|]]|e]; reflexivity.
  - reflexivity.
Qed.

(** ** Overlapping actions *)

Lemma step_is_apply_sets (t : Transition) (s : AuthState) :
  step t s = apply_sets (sets_of t) s.
Proof.
  destruct t as [sb addr pw|sb name addr pw|sb|];
    unfold apply_sets, sets_of, login_sets, register_sets, logout_sets,
      signUp_metadata; exec.
  - destruct (signInWithPassword sb addr pw) as [[[au|] [e|]]|e]; reflexivity.
  - destruct (selectUserByEmail sb addr) as [[[row|] qe]|e]; cbn;
      try reflexivity.
    destruct (signUp sb addr pw _) as [[[au|] [e|]]|e]; reflexivity.
  - destruct (signOut sb) as [[[e|]]|e]; reflexivity.
  - reflexivity.
Qed.

(** Completed runs are the schedules in which the actions do not overlap. *)
Lemma run_all_is_apply_sets (ts : list Transition) (s : AuthState) :
  run_all ts s = apply_sets (concat (map sets_of ts)) s.
Proof.
  unfold run_all. revert s.
  induction ts as [|t ts IH]; intros s; cbn; [reflexivity|].
  unfold apply_sets. rewrite fold_left_app. fold (apply_sets (sets_of t) s).
  rewrite <- step_is_apply_sets. apply IH.
Qed.

Lemma interleaved_skip_empty {A : Type} (queues : list (list A)) (schedule : list A) :
  interleaved queues schedule -> interleaved ([] :: queues) schedule.
Proof.
  induction 1 as [queues Hall|before after x q schedule _ IH].
  - constructor. now constructor.
  - exact (interleaved_next ([] :: before) after x q schedule IH).
Qed.

Lemma interleaved_sequential {A : Type} (queues : list (list A)) :
  interleaved queues (concat queues).
Proof.
  induction queues as [|q queues IH]; cbn.
  - constructor. constructor.
  - induction q as [|x q IHq]; cbn.
    + now apply interleaved_skip_empty.
    + exact (interleaved_next [] queues x q _ IHq).
Qed.

Lemma sets_of_write_in_step (t : Transition) :
  Forall (fun p => writes_in_step p = true) (sets_of t).
Proof.
  destruct t as [sb addr pw|sb name addr pw|sb|];
    unfold sets_of, login_sets, register_sets, logout_sets.
  - destruct (signInWithPassword sb addr pw) as [[[au|] [e|]]|e];
      repeat constructor.
  - destruct (selectUserByEmail sb addr) as [[[row|] qe]|e];
      try (repeat constructor).
    destruct (signUp sb addr pw _) as [[[au|] [e|]]|e]; repeat constructor.
  - destruct (signOut sb) as [[[e|]]|e]; repeat constructor.
  - repeat constructor.
Qed.

Lemma merge_consistent (p : Partial) (s : AuthState) :
  writes_in_step p = true -> consistent s -> consistent (merge p s).
Proof.
  unfold writes_in_step, consistent, merge.
  destruct p as [[[u|]|] [[|]|] l e]; cbn; try discriminate; auto.
Qed.

Lemma apply_sets_consistent (ps : list Partial) (s : AuthState) :
  Forall (fun p => writes_in_step p = true) ps ->
  consistent s -> consistent (apply_sets ps s).
Proof.
  unfold apply_sets. intros Hps. revert s.
  induction Hps as [|p ps Hp _ IH]; intros s Hs; [exact Hs|].
  cbn. apply IH. now apply merge_consistent.
Qed.

Lemma interleaved_from_queue {A : Type} (queues : list (list A)) (schedule : list A) :
  interleaved queues schedule ->
  forall x, In x schedule -> exists q, In q queues /\ In x q.
Proof.
  induction 1 as [queues _|before after y q schedule _ IH]; intros x Hx.
  - destruct Hx.
  - destruct Hx as [->|Hx].
    + exists (x :: q). split; [apply in_elt|now left].
    + destruct (IH x Hx) as [q' [Hq' Hxq']].
      apply in_app_or in Hq'. destruct Hq' as [Hq'|[<-|Hq']].
      * exists q'. split; [apply in_or_app; now left|exact Hxq'].
      * exists (y :: q). split; [apply in_elt|now right].
      * exists q'. split; [apply in_or_app; right; now right|exact Hxq'].
Qed.

(** When any number of actions overlap, each with its own client, the store
    agrees on [isAuthenticated] and [user] after every single [set], in
    whatever order the actions' [set]s come: the two fields are never seen
    apart, not even while a call is in flight. *)
Theorem overlapping_actions_stay_consistent
    (ts : list Transition) (schedule : list Partial) (n : nat) (s : AuthState) :
  interleaved (map sets_of ts) schedule ->
  consistent s ->
  consistent (apply_sets (firstn n schedule) s).
Proof.
  intros Hsched Hs. apply apply_sets_consistent; [|exact Hs].
  apply Forall_forall. intros p Hp.
  assert (Hin : In p schedule).
  { rewrite <- (firstn_skipn n schedule). apply in_or_app. now left. }
  destruct (interleaved_from_queue _ _ Hsched p Hin) as [q [Hq Hpq]].
  apply in_map_iff in Hq. destruct Hq as [t [<- _]].
  pose proof (sets_of_write_in_step t) as Hall.
  rewrite Forall_forall in Hall. now apply Hall.
Qed.

(** * The forms *)

(** ** The matcher *)

Lemma matches_seq_inv (r1 r2 : RegExp) (s : list ascii) :
  matches (Seq r1 r2) s ->
  exists s1 s2, s = (s1 ++ s2)%list /\ matches r1 s1 /\ matches r2 s2.
Proof. intros H. inversion H; subst. eauto. Qed.

Lemma nullable_matches (r : RegExp) : nullable r = true <-> matches r [].
Proof.
  induction r as [| |p|r1 IH1 r2 IH2|r1 IH1 r2 IH2|r IH]; cbn.
  - split; intros H; [discriminate|inversion H].
  - split; intros H; [constructor|reflexivity].
  - split; intros H; [discriminate|inversion H].
  - split; intros H.
    + apply andb_prop in H as [H1 H2].
      change (@nil ascii) with (@nil ascii ++ [])%list. constructor; tauto.
    + apply matches_seq_inv in H as [s1 [s2 [E [H1 H2]]]].
      symmetry in E. apply app_eq_nil in E as [-> ->].
      apply andb_true_intro. tauto.
  - split; intros H.
    + apply orb_prop in H as [H|H];
        [apply matches_alt_l|apply matches_alt_r]; tauto.
    + inversion H; subst; apply orb_true_intro; tauto.
  - split; intros H; [constructor|reflexivity].
Qed.

Lemma matches_star_cons (r : RegExp) (c : ascii) (s : list ascii) :
  matches (Star r) (c :: s) ->
  exists s1 s2, s = (s1 ++ s2)%list /\ matches r (c :: s1) /\ matches (Star r) s2.
Proof.
  intros H. remember (Star r) as r' eqn:Er. remember (c :: s) as cs eqn:Es.
  revert s Es.
  induction H as [| | | | | |r0 s1 s2 H1 IH1 H2 IH2]; intros s' Es;
    try discriminate.
  inversion Er; subst r0.
  destruct s1 as [|c1 s1]; cbn in Es.
  - now apply IH2.
  - inversion Es; subst. now exists s1, s2.
Qed.

Lemma derivative_matches (r : RegExp) (c : ascii) (s : list ascii) :
  matches (derivative c r) s <-> matches r (c :: s).
Proof.
  revert s.
  induction r as [| |p|r1 IH1 r2 IH2|r1 IH1 r2 IH2|r IH]; intros s; cbn.
  - split; intros H; inversion H.
  - split; intros H; inversion H.
  - destruct (p c) eqn:Hp; split; intros H.
    + inversion H; subst. now constructor.
    + inversion H; subst. constructor.
    + inversion H.
    + inversion H; subst. congruence.
  - assert (Hseq : matches (Seq (derivative c r1) r2) s ->
                   matches (Seq r1 r2) (c :: s)).
    { intros H. apply matches_seq_inv in H as [s1 [s2 [-> [H1 H2]]]].
      change (c :: s1 ++ s2)%list with ((c :: s1) ++ s2)%list.
      constructor; [now apply IH1|exact H2]. }
    assert (Hcons : matches (Seq r1 r2) (c :: s) ->
                    (exists s1 s2, s = (s1 ++ s2)%list /\ matches r1 (c :: s1)
                                   /\ matches r2 s2)
                    \/ (matches r1 [] /\ matches r2 (c :: s))).
    { intros H. apply matches_seq_inv in H as [s1 [s2 [E [H1 H2]]]].
      destruct s1 as [|c1 s1]; cbn in E.
      - right. subst. now split.
      - left. inversion E; subst. now exists s1, s2. }
    destruct (nullable r1) eqn:Hn; split; intros H.
    + inversion H; subst; [now apply Hseq|].
      change (c :: s) with ([] ++ c :: s)%list.
      constructor; [now apply nullable_matches|now apply IH2].
    + destruct (Hcons H) as [[s1 [s2 [-> [H1 H2]]]]|[_ H2]].
      * apply matches_alt_l. constructor; [now apply IH1|exact H2].
      * apply matches_alt_r. now apply IH2.
    + now apply Hseq.
    + destruct (Hcons H) as [[s1 [s2 [-> [H1 H2]]]]|[H1 _]].
      * constructor; [now apply IH1|exact H2].
      * apply nullable_matches in H1. congruence.
  - split; intros H; inversion H; subst;
      solve [apply matches_alt_l; now apply IH1
            |apply matches_alt_r; now apply IH2].
  - split; intros H.
    + apply matches_seq_inv in H as [s1 [s2 [-> [H1 H2]]]].
      change (c :: s1 ++ s2)%list with ((c :: s1) ++ s2)%list.
      constructor; [now apply IH|exact H2].
    + apply matches_star_cons in H as [s1 [s2 [-> [H1 H2]]]].
      constructor; [now apply IH|exact H2].
Qed.

(** The matcher decides the language of the pattern. *)
Lemma regexp_test_matches (r : RegExp) (s : list ascii) :
  regexp_test r s = true <-> matches r s.
Proof.
  unfold regexp_test. revert r.
  induction s as [|c s IH]; intros r; cbn.
  - apply nullable_matches.
  - rewrite IH. apply derivative_matches.
Qed.

Lemma matches_plus_class (p : ascii -> bool) (s : list ascii) :
  matches (Plus (CharClass p)) s <-> s <> [] /\ forallb p s = true.
Proof.
  assert (Hstar : forall s, matches (Star (CharClass p)) s <-> forallb p s = true).
  { clear s. intros s. split.
    - intros H. remember (Star (CharClass p)) as r eqn:Er.
      induction H as [| | | | | |r0 s1 s2 H1 _ H2 IH2]; try discriminate.
      + reflexivity.
      + inversion Er; subst r0. inversion H1; subst. cbn.
        apply andb_true_intro. split; [assumption|now apply IH2].
    - induction s as [|c s IH]; cbn; intros H; [constructor|].
      apply andb_prop in H as [Hc Hs].
      change (c :: s) with ([c] ++ s)%list.
      constructor; [now constructor|now apply IH]. }
  unfold Plus. split.
  - intros H. apply matches_seq_inv in H as [s1 [s2 [-> [H1 H2]]]].
    inversion H1; subst. cbn. split; [discriminate|].
    apply andb_true_intro. split; [assumption|now apply Hstar].
  - intros [Hne Hall]. destruct s as [|c s]; [contradiction|].
    cbn in Hall. apply andb_prop in Hall as [Hc Hs].
    change (c :: s) with ([c] ++ s)%list.
    constructor; [now constructor|now apply Hstar].
Qed.

Lemma matches_char (c : ascii) (s : list ascii) :
  matches (CharClass (Ascii.eqb c)) s <-> s = [c].
Proof.
  split.
  - intros H. inversion H; subst. f_equal. symmetry. now apply Ascii.eqb_eq.
  - intros ->. constructor. apply Ascii.eqb_refl.
Qed.

Lemma matches_emailRegex (s : list ascii) :
  matches emailRegex s
  <-> exists local domain tld,
        s = (local ++ "@"%char :: domain ++ "."%char :: tld)%list
        /\ (local <> [] /\ forallb not_space_or_at local = true)
        /\ (domain <> [] /\ forallb not_space_or_at domain = true)
        /\ (tld <> [] /\ forallb not_space_or_at tld = true).
Proof.
  unfold emailRegex. split.
  - intros H.
    apply matches_seq_inv in H as [l [s1 [-> [Hl H1]]]].
    apply matches_seq_inv in H1 as [a [s2 [-> [Ha H2]]]].
    apply matches_seq_inv in H2 as [d [s3 [-> [Hd H3]]]].
    apply matches_seq_inv in H3 as [o [t [-> [Ho Ht]]]].
    apply matches_char in Ha, Ho. subst.
    apply matches_plus_class in Hl, Hd, Ht.
    exists l, d, t. split; [reflexivity|]. tauto.
  - intros [l [d [t [-> [Hl [Hd Ht]]]]]].
    constructor; [now apply matches_plus_class|].
    change ("@"%char :: d ++ "."%char :: t)%list
      with (["@"%char] ++ d ++ ["."%char] ++ t)%list.
    constructor; [now apply matches_char|].
    constructor; [now apply matches_plus_class|].
    constructor; [now apply matches_char|now apply matches_plus_class].
Qed.

(** ** [trim] and [validateEmail] *)

Lemma trimStart_nil_iff (s : list ascii) :
  trimStart s = [] <-> forallb is_whitespace s = true.
Proof.
  induction s as [|c s IH]; cbn; [tauto|].
  destruct (is_whitespace c); cbn; [exact IH|].
  split; discriminate.
Qed.

Lemma trimStart_head (s : list ascii) :
  trimStart s = [] \/ exists c s', trimStart s = c :: s' /\ is_whitespace c = false.
Proof.
  induction s as [|c s IH]; cbn; [now left|].
  destruct (is_whitespace c) eqn:Hc; [exact IH|].
  right. now exists c, s.
Qed.

Lemma forallb_rev {A : Type} (p : A -> bool) (l : list A) :
  forallb p (rev l) = forallb p l.
Proof.
  induction l as [|a l IH]; cbn; [reflexivity|].
  rewrite forallb_app, IH. cbn. rewrite andb_true_r. apply andb_comm.
Qed.

Lemma string_of_list_ascii_nil_iff (l : list ascii) :
  string_of_list_ascii l = "" <-> l = [].
Proof. destruct l; cbn; split; intros H; try discriminate; reflexivity. Qed.

(** [!s.trim()] holds exactly for the strings made of white space only. *)
Lemma blank_iff_whitespace (s : string) :
  js_not_string (trim s) = true
  <-> forallb is_whitespace (list_ascii_of_string s) = true.
Proof.
  unfold js_not_string, trim. rewrite String.eqb_eq.
  rewrite string_of_list_ascii_nil_iff.
  set (l := list_ascii_of_string s).
  split.
  - intros H. apply (f_equal (@rev ascii)) in H. rewrite rev_involutive in H.
    cbn in H. apply trimStart_nil_iff in H. rewrite forallb_rev in H.
    destruct (trimStart_head l) as [E|[c [s' [E Hc]]]].
    + now apply trimStart_nil_iff.
    + rewrite E in H. cbn in H. rewrite Hc in H. discriminate.
  - intros H. apply trimStart_nil_iff in H. rewrite H. reflexivity.
Qed.

Lemma not_space_or_at_spec (c : ascii) :
  not_space_or_at c = true <-> is_whitespace c = false /\ c <> "@"%char.
Proof.
  unfold not_space_or_at. rewrite negb_true_iff, orb_false_iff.
  now rewrite Ascii.eqb_neq.
Qed.

Lemma validateEmail_parts (email : string) :
  validateEmail email = true
  <-> exists local domain tld,
        list_ascii_of_string email
        = (local ++ "@"%char :: domain ++ "."%char :: tld)%list
        /\ (local <> [] /\ forallb not_space_or_at local = true)
        /\ (domain <> [] /\ forallb not_space_or_at domain = true)
        /\ (tld <> [] /\ forallb not_space_or_at tld = true).
Proof.
  unfold validateEmail. rewrite regexp_test_matches. apply matches_emailRegex.
Qed.

Lemma validateEmail_not_blank (email : string) :
  validateEmail email = true -> js_not_string (trim email) = false.
Proof.
  intros H. apply validateEmail_parts in H as [l [d [t [E _]]]].
  destruct (js_not_string (trim email)) eqn:Hb; [|reflexivity].
  apply blank_iff_whitespace in Hb. rewrite E in Hb.
  rewrite forallb_app in Hb. apply andb_prop in Hb as [_ Hb].
  cbn in Hb. discriminate.
Qed.

(** [validateEmail] accepts exactly the strings of the form
    [local@domain.tld] in which the three parts are not empty and hold
    neither white space nor ['@'] (a part may hold dots). *)
Theorem validateEmail_accepts_exactly (email : string) :
  validateEmail email = true
  <-> exists local domain tld,
        list_ascii_of_string email
        = (local ++ "@"%char :: domain ++ "."%char :: tld)%list
        /\ (local <> [] /\ forallb not_space_or_at local = true)
        /\ (domain <> [] /\ forallb not_space_or_at domain = true)
        /\ (tld <> [] /\ forallb not_space_or_at tld = true).
Proof. apply validateEmail_parts. Qed.

Lemma count_at_clean (s : list ascii) :
  forallb not_space_or_at s = true -> count_occ ascii_dec s "@"%char = 0.
Proof.
  induction s as [|c s IH]; cbn; [reflexivity|].
  intros H. apply andb_prop in H as [Hc Hs].
  apply not_space_or_at_spec in Hc as [_ Hc].
  destruct (ascii_dec c "@"); [contradiction|now apply IH].
Qed.

Lemma no_space_clean (s : list ascii) :
  forallb not_space_or_at s = true ->
  forallb (fun c => negb (is_whitespace c)) s = true.
Proof.
  induction s as [|c s IH]; cbn; [reflexivity|].
  intros H. apply andb_prop in H as [Hc Hs].
  apply not_space_or_at_spec in Hc as [Hc _].
  rewrite Hc. cbn. now apply IH.
Qed.

(** An address [validateEmail] accepts holds exactly one ['@'], no white
    space at all (none in front or behind either: it is not trimmed), and at
    least five characters. *)
Theorem validateEmail_one_at_no_space (email : string) :
  validateEmail email = true ->
  count_occ ascii_dec (list_ascii_of_string email) "@"%char = 1
  /\ forallb (fun c => negb (is_whitespace c)) (list_ascii_of_string email) = true
  /\ 5 <= String.length email.
Proof.
  intros H.
  apply validateEmail_parts in H as [l [d [t [E [[Hl Hl'] [[Hd Hd'] [Ht Ht']]]]]]].
  assert (Hlen : String.length email = List.length (list_ascii_of_string email)).
  { clear. induction email as [|c s IH]; cbn; congruence. }
  rewrite Hlen, E. repeat split.
  - rewrite count_occ_app. cbn. rewrite count_occ_app. cbn.
    rewrite !count_at_clean by assumption. reflexivity.
  - rewrite forallb_app. cbn. rewrite forallb_app. cbn.
    rewrite !no_space_clean by assumption. reflexivity.
  - rewrite length_app. cbn. rewrite length_app. cbn.
    destruct l; [contradiction|]. destruct d; [contradiction|].
    destruct t; [contradiction|]. cbn. lia.
Qed.

(** ** The handlers of the forms *)

Lemma run_login_settled supabase addr password s :
  run (login supabase addr password) s
  = (Normal tt, {| store := store_after (login supabase addr password) s;
                   calls := calls_of (login supabase addr password) s |}).
Proof.
  pose proof (login_settles supabase addr password s) as H.
  unfold store_after, calls_of.
  destruct (run (login supabase addr password) s) as [c [st cs]].
  cbn in *. now subst.
Qed.

Lemma run_register_settled supabase name addr password s :
  run (register supabase name addr password) s
  = (Normal tt, {| store := store_after (register supabase name addr password) s;
                   calls := calls_of (register supabase name addr password) s |}).
Proof.
  pose proof (register_settles supabase name addr password s) as H.
  unfold store_after, calls_of.
  destruct (run (register supabase name addr password) s) as [c [st cs]].
  cbn in *. now subst.
Qed.

Lemma run_logout_settled supabase s :
  run (logout supabase) s
  = (Normal tt, {| store := store_after (logout supabase) s;
                   calls := calls_of (logout supabase) s |}).
Proof.
  pose proof (logout_settles supabase s) as H.
  unfold store_after, calls_of.
  destruct (run (logout supabase) s) as [c [st cs]].
  cbn in *. now subst.
Qed.

Lemma login_calls supabase addr password s :
  calls_of (login supabase addr password) s
  = [CallSignInWithPassword addr password].
Proof.
  exec. destruct (signInWithPassword supabase addr password)
    as [[[u|] [e|]]|e]; reflexivity.
Qed.

Lemma register_calls_start supabase name addr password s :
  exists rest,
    calls_of (register supabase name addr password) s
    = CallSelectUserByEmail addr :: rest.
Proof.
  exec. destruct (selectUserByEmail supabase addr) as [[[row|] qe]|e]; cbn;
    try (eexists; reflexivity).
  destruct (signUp supabase addr password _) as [[[u|] [e|]]|e];
    eexists; reflexivity.
Qed.

(** The two ways [LoginForm]'s [handleSubmit] can go. *)
Lemma LoginForm_handleSubmit_valid supabase f s :
  validateEmail (lf_email f) = true ->
  lf_password f <> "" ->
  LoginForm_handleSubmit supabase f s
  = {| form_after := f;
       auth_after := store_after (login supabase (lf_email f) (lf_password f)) s;
       client_calls := calls_of (login supabase (lf_email f) (lf_password f)) s;
       navigations := ["/dashboard"];
       rejected := None |}.
Proof.
  intros Hmail Hpass. unfold LoginForm_handleSubmit.
  rewrite (validateEmail_not_blank _ Hmail), Hmail.
  apply String.eqb_neq in Hpass. unfold js_not_string at 1. rewrite Hpass.
  cbn -[run login]. rewrite run_login_settled. reflexivity.
Qed.

Lemma LoginForm_handleSubmit_invalid supabase f s :
  validateEmail (lf_email f) = false \/ lf_password f = "" ->
  exists newErrors,
    LoginForm_handleSubmit supabase f s
    = {| form_after := {| lf_email := lf_email f; lf_password := lf_password f;
                          lf_errors := newErrors;
                          lf_resetEmailSent := lf_resetEmailSent f |};
         auth_after := s; client_calls := []; navigations := [];
         rejected := None |}
    /\ newErrors <> {| le_email := ""; le_password := "" |}.
Proof.
  intros H. unfold LoginForm_handleSubmit.
  destruct (js_not_string (trim (lf_email f))) eqn:Hblank;
    [|destruct (validateEmail (lf_email f)) eqn:Hmail]; cbn;
    destruct (js_not_string (lf_password f)) eqn:Hpass; cbn;
    try (eexists; split; [reflexivity|discriminate]).
  destruct H as [H|H]; [discriminate|].
  unfold js_not_string in Hpass. apply String.eqb_neq in Hpass. contradiction.
Qed.

(** [LoginForm]'s [handleSubmit] reaches the client only with an address
    that [validateEmail] accepts and a password that is not empty, and then
    with the single call [signInWithPassword] on exactly the two fields. *)
Theorem LoginForm_submit_calls_only_when_valid supabase f s (c : Call) :
  In c (client_calls (LoginForm_handleSubmit supabase f s)) ->
  validateEmail (lf_email f) = true
  /\ lf_password f <> ""
  /\ client_calls (LoginForm_handleSubmit supabase f s)
     = [CallSignInWithPassword (lf_email f) (lf_password f)].
Proof.
  intros Hc.
  destruct (validateEmail (lf_email f)) eqn:Hmail.
  - destruct (String.eqb_spec (lf_password f) "") as [Hpass|Hpass].
    + destruct (LoginForm_handleSubmit_invalid supabase f s (or_intror Hpass))
        as [errs [E _]].
      rewrite E in Hc. destruct Hc.
    + rewrite (LoginForm_handleSubmit_valid supabase f s Hmail Hpass). cbn.
      rewrite login_calls. auto.
  - destruct (LoginForm_handleSubmit_invalid supabase f s (or_introl Hmail))
      as [errs [E _]].
    rewrite E in Hc. destruct Hc.
Qed.

(** When the address is not accepted or the password is empty, [handleSubmit]
    of [LoginForm] stays local: the store is untouched, no call is made,
    nothing is navigated to, the two fields are kept and a validation message
    is set. *)
Theorem LoginForm_submit_invalid_stays_local supabase f s :
  validateEmail (lf_email f) = false \/ lf_password f = "" ->
  let r := LoginForm_handleSubmit supabase f s in
  auth_after r = s
  /\ client_calls r = []
  /\ navigations r = []
  /\ lf_email (form_after r) = lf_email f
  /\ lf_password (form_after r) = lf_password f
  /\ lf_errors (form_after r) <> {| le_email := ""; le_password := "" |}.
Proof.
  intros H r. subst r.
  destruct (LoginForm_handleSubmit_invalid supabase f s H) as [errs [E Herrs]].
  rewrite E. cbn. repeat split. exact Herrs.
Qed.

(** When the form is valid, [handleSubmit] of [LoginForm] navigates to
    [/dashboard] however [login] ended, because [login] keeps its failures in
    the store: after a failed sign-in the handler has navigated to
    [/dashboard] while the store says not authenticated and carries the
    error. *)
Theorem LoginForm_submit_navigates_after_failed_login supabase f s (e : JsError) :
  validateEmail (lf_email f) = true ->
  lf_password f <> "" ->
  auth_failure (signInWithPassword supabase (lf_email f) (lf_password f))
  = Some e ->
  let r := LoginForm_handleSubmit supabase f s in
  navigations r = ["/dashboard"]
  /\ isAuthenticated (auth_after r) = false
  /\ user (auth_after r) = None
  /\ error (auth_after r) = Some login_error_message.
Proof.
  intros Hmail Hpass Hfail r. subst r.
  rewrite (LoginForm_handleSubmit_valid supabase f s Hmail Hpass). cbn.
  split; [reflexivity|]. exec.
  destruct (signInWithPassword supabase (lf_email f) (lf_password f))
    as [r|e']; cbn in *; [rewrite Hfail|]; cbn; auto.
Qed.

(** When the form is valid, [handleSubmit] of [LoginForm] does exactly what
    [login] does to the store, leaves the form as it is (earlier validation
    messages included), navigates to [/dashboard] once and does not throw. *)
Theorem LoginForm_submit_valid_runs_login supabase f s :
  validateEmail (lf_email f) = true ->
  lf_password f <> "" ->
  let r := LoginForm_handleSubmit supabase f s in
  auth_after r = store_after (login supabase (lf_email f) (lf_password f)) s
  /\ form_after r = f
  /\ navigations r = ["/dashboard"]
  /\ rejected r = None.
Proof.
  intros Hmail Hpass r. subst r.
  rewrite (LoginForm_handleSubmit_valid supabase f s Hmail Hpass). cbn. auto.
Qed.

Lemma RegisterForm_handleSubmit_valid supabase f s :
  register_form_passes f = true ->
  RegisterForm_handleSubmit supabase f s
  = {| form_after := f;
       auth_after :=
         store_after
           (register supabase (rf_username f) (rf_email f) (rf_password f)) s;
       client_calls :=
         calls_of
           (register supabase (rf_username f) (rf_email f) (rf_password f)) s;
       navigations := ["/dashboard"];
       rejected := None |}.
Proof.
  unfold register_form_passes. intros H.
  apply andb_prop in H as [H Hconfirm]. apply andb_prop in H as [H Hlen].
  apply andb_prop in H as [Hname Hmail]. apply negb_true_iff in Hname.
  unfold RegisterForm_handleSubmit.
  rewrite Hname, (validateEmail_not_blank _ Hmail), Hmail, Hconfirm.
  assert (Hshort : (String.length (rf_password f) <? 6)%nat = false).
  { apply Nat.ltb_ge. now apply Nat.leb_le. }
  assert (Hpass : js_not_string (rf_password f) = false).
  { unfold js_not_string. apply String.eqb_neq. intros E. rewrite E in Hlen.
    discriminate. }
  rewrite Hshort, Hpass.
  cbn -[run register]. rewrite run_register_settled. reflexivity.
Qed.

Lemma RegisterForm_handleSubmit_invalid supabase f s :
  register_form_passes f = false ->
  exists newErrors,
    RegisterForm_handleSubmit supabase f s
    = {| form_after := {| rf_username := rf_username f; rf_email := rf_email f;
                          rf_password := rf_password f;
                          rf_confirmPassword := rf_confirmPassword f;
                          rf_errors := newErrors |};
         auth_after := s; client_calls := []; navigations := [];
         rejected := None |}
    /\ newErrors <> no_register_errors.
Proof.
  unfold register_form_passes, RegisterForm_handleSubmit. intros H.
  destruct (js_not_string (trim (rf_username f))) eqn:Hname;
    (destruct (js_not_string (trim (rf_email f))) eqn:Hblank;
     [|destruct (validateEmail (rf_email f)) eqn:Hmail]);
    (destruct (js_not_string (rf_password f)) eqn:Hpass;
     [|destruct (String.length (rf_password f) <? 6)%nat eqn:Hshort]);
    destruct (String.eqb (rf_password f) (rf_confirmPassword f)) eqn:Hconfirm;
    cbn -[run register];
    try (eexists; split; [reflexivity|discriminate]).
  apply Nat.ltb_ge in Hshort. apply Nat.leb_le in Hshort.
  rewrite Hshort in H. discriminate.
Qed.

(** [RegisterForm]'s [handleSubmit] reaches the client only when the user
    name is not blank, [validateEmail] accepts the address, the password has
    at least six characters and the confirmation equals it; the first call
    is then the look-up of that address. *)
Theorem RegisterForm_submit_calls_only_when_valid supabase f s (c : Call) :
  In c (client_calls (RegisterForm_handleSubmit supabase f s)) ->
  js_not_string (trim (rf_username f)) = false
  /\ validateEmail (rf_email f) = true
  /\ 6 <= String.length (rf_password f)
  /\ rf_password f = rf_confirmPassword f
  /\ exists rest,
       client_calls (RegisterForm_handleSubmit supabase f s)
       = CallSelectUserByEmail (rf_email f) :: rest.
Proof.
  intros Hc. destruct (register_form_passes f) eqn:Hok.
  - rewrite (RegisterForm_handleSubmit_valid supabase f s Hok). cbn.
    unfold register_form_passes in Hok.
    apply andb_prop in Hok as [H Hconfirm]. apply andb_prop in H as [H Hlen].
    apply andb_prop in H as [Hname Hmail]. apply negb_true_iff in Hname.
    apply Nat.leb_le in Hlen. apply String.eqb_eq in Hconfirm.
    repeat split; try assumption. apply register_calls_start.
  - destruct (RegisterForm_handleSubmit_invalid supabase f s Hok)
      as [errs [E _]].
    rewrite E in Hc. destruct Hc.
Qed.

(** When one of the four checks fails, [handleSubmit] of [RegisterForm]
    stays local: the store is untouched, no call is made, nothing is
    navigated to, and a validation message is set. *)
Theorem RegisterForm_submit_invalid_stays_local supabase f s :
  register_form_passes f = false ->
  let r := RegisterForm_handleSubmit supabase f s in
  auth_after r = s
  /\ client_calls r = []
  /\ navigations r = []
  /\ rf_errors (form_after r) <> no_register_errors.
Proof.
  intros H r. subst r.
  destruct (RegisterForm_handleSubmit_invalid supabase f s H) as [errs [E Herrs]].
  rewrite E. cbn. repeat split. exact Herrs.
Qed.

(** When the four checks pass, [handleSubmit] of [RegisterForm] does to the
    store what [register] does and navigates to [/dashboard] however
    [register] ended: for an address that is already registered it has
    navigated there while the store says not authenticated and carries the
    message for an existing account. *)
Theorem RegisterForm_submit_navigates_after_refusal
    supabase f s (q : QueryResponse) (existingUser : UserRow) :
  register_form_passes f = true ->
  selectUserByEmail supabase (rf_email f) = Fulfilled q ->
  query_data q = Some existingUser ->
  let r := RegisterForm_handleSubmit supabase f s in
  navigations r = ["/dashboard"]
  /\ auth_after r
     = {| user := None; isAuthenticated := false; isLoading := false;
          error := Some duplicate_account_message |}.
Proof.
  intros Hok Hq Hrow r. subst r.
  rewrite (RegisterForm_handleSubmit_valid supabase f s Hok). cbn.
  split; [reflexivity|]. exec_with Hq. rewrite Hrow. reflexivity.
Qed.

(** ** Password reset *)

Section PasswordReset.

Variable resetPasswordForEmail : string -> string -> Settled ResetResponse.
Variable origin : string.
Variable f : LoginFormState.

(** [handlePasswordReset] asks the provider exactly when [validateEmail]
    accepts the address in the form, once, for that address and with the
    redirect target [origin/reset-password]. *)
Theorem handlePasswordReset_calls :
  snd (LoginForm_handlePasswordReset resetPasswordForEmail origin f)
  = if validateEmail (lf_email f)
    then [CallResetPasswordForEmail (lf_email f) (origin ++ "/reset-password")]
    else [].
Proof.
  unfold LoginForm_handlePasswordReset.
  destruct (validateEmail (lf_email f)) eqn:Hmail.
  - rewrite (validateEmail_not_blank _ Hmail). cbn.
    destruct (resetPasswordForEmail _ _) as [[[e|]]|e]; reflexivity.
  - destruct (js_not_string (trim (lf_email f))); reflexivity.
Qed.

(** When the reset request fails, whatever the failure,
    [handlePasswordReset] shows the same fixed message under the e-mail
    field and changes nothing else: the fields, the message under the
    password field and [resetEmailSent] are as before. *)
Theorem handlePasswordReset_failure_is_generic (e : JsError) :
  validateEmail (lf_email f) = true ->
  reset_failure
    (resetPasswordForEmail (lf_email f) (origin ++ "/reset-password"))
  = Some e ->
  fst (LoginForm_handlePasswordReset resetPasswordForEmail origin f)
  = {| lf_email := lf_email f; lf_password := lf_password f;
       lf_errors := {| le_email := reset_failure_message;
                       le_password := le_password (lf_errors f) |};
       lf_resetEmailSent := lf_resetEmailSent f |}.
Proof.
  intros Hmail Hfail. unfold LoginForm_handlePasswordReset.
  rewrite (validateEmail_not_blank _ Hmail), Hmail. cbn.
  destruct (resetPasswordForEmail _ _) as [r|e']; cbn in *; [|reflexivity].
  rewrite Hfail. reflexivity.
Qed.

End PasswordReset.

(** ** Logging out from the layout *)


(** After a failed sign-out [handleLogout] has sent the user to [/login]
    while the store still holds the session: [user] and [isAuthenticated]
    are as before, and [error] is the message of the failure. *)
Theorem handleLogout_navigates_after_failed_signOut supabase s (e : JsError) :
  signOut_failure (signOut supabase) = Some e ->
  let r := MainLayout_handleLogout supabase s in
  navigations r = ["/login"]
  /\ user (auth_after r) = user s
  /\ isAuthenticated (auth_after r) = isAuthenticated s
  /\ error (auth_after r) = Some (message e).
Proof.
  intros Hfail. unfold MainLayout_handleLogout. rewrite run_logout_settled. cbn.
  split; [reflexivity|]. exec.
  destruct (signOut supabase) as [r|e']; cbn in *.
  - rewrite Hfail. cbn. auto.
  - inversion Hfail. cbn. auto.
Qed.

(** ** The generated [id] of an input *)



Lemma toLowerCase_unit_whitespace (c : ascii) :
  is_whitespace c = false -> is_whitespace (toLowerCase_unit c) = false.
Proof.
  destruct c as [[] [] [] [] [] [] [] []]; cbn; intros H;
    try discriminate; reflexivity.
Qed.



(** * The further properties at concrete calls *)

Lemma register_signUp_failure_shows_message_witness :
  store_after (register closed_signUp_client "bob" "b@c.com" "pw1234")
    ana_signed_in
  = {| user := None; isAuthenticated := false; isLoading := false;
       error := Some "Signups not allowed" |}.
Proof.
  apply (register_signUp_failure_shows_message closed_signUp_client "bob"
           "b@c.com" "pw1234" ana_signed_in (mkError "Signups not allowed"));
    reflexivity.
Defined.

Lemma register_lookup_rejected_stops_witness :
  calls_of (register offline_client "bob" "b@c.com" "pw1234") initialState
  = [CallSelectUserByEmail "b@c.com"]
  /\ store_after (register offline_client "bob" "b@c.com" "pw1234") initialState
     = {| user := None; isAuthenticated := false; isLoading := false;
          error := Some "Failed to fetch" |}.
Proof.
  apply (register_lookup_rejected_stops offline_client "bob" "b@c.com" "pw1234"
           initialState (mkError "Failed to fetch")).
  reflexivity.
Defined.

Lemma register_signUp_carries_metadata_witness :
  calls_of (register closed_signUp_client "bob" "b@c.com" "pw1234") initialState
  = [CallSelectUserByEmail "b@c.com";
     CallSignUp "b@c.com" "pw1234"
       {| md_username := JString "bob"; md_role := JString "user" |}].
Proof.
  apply (register_signUp_carries_metadata closed_signUp_client "bob" "b@c.com"
           "pw1234" initialState).
  reflexivity.
Defined.

Lemma login_forgets_prior_store_witness :
  store_after (login refusing_client "a@b.com" "secret") ana_signed_in
  = store_after (login refusing_client "a@b.com" "secret") stuck_loading.
Proof.
  apply (login_forgets_prior_store refusing_client "a@b.com" "secret"
           ana_signed_in stuck_loading).
  reflexivity.
Defined.

Lemma login_falsy_username_falls_back_witness :
  exists currentUser,
    user (store_after (login (accepting_client empty_username_identity)
                         "n@m.io" "secret") initialState)
    = Some currentUser
    /\ username currentUser = JString "n@m.io".
Proof.
  apply (login_falsy_username_falls_back (accepting_client empty_username_identity)
           "n@m.io" "secret" initialState
           {| data_user := Some empty_username_identity; auth_error := None |}
           empty_username_identity);
    reflexivity.
Defined.

Lemma failed_login_then_clearError_witness :
  store_after clearError
    (store_after (login offline_client "a@b.com" "secret") ana_signed_in)
  = initialState.
Proof.
  apply (failed_login_then_clearError offline_client "a@b.com" "secret"
           ana_signed_in (mkError "Failed to fetch")).
  reflexivity.
Defined.

Lemma login_then_logout_round_trip_witness :
  store_after (logout userless_client)
    (store_after (login (accepting_client ana) "a@b.com" "secret") stuck_loading)
  = initialState.
Proof.
  apply (login_then_logout_round_trip (accepting_client ana) "a@b.com" "secret"
           userless_client stuck_loading
           {| data_user := Some ana; auth_error := None |} ana);
    reflexivity.
Defined.

Lemma reachable_user_has_role_witness :
  let s := step (DoLogin (accepting_client ana) "a@b.com" "secret") initialState in
  let u := {| id := "1"; username := JString "ana"; email := "a@b.com";
              role := JString "user" |} in
  reachable s /\ user s = Some u /\ truthy (role u) = true.
Proof.
  intros s u.
  assert (Hreach : reachable s) by (repeat constructor).
  split; [exact Hreach|]. split; [reflexivity|].
  exact (reachable_user_has_role s u Hreach eq_refl).
Defined.

Lemma logout_and_clearError_keep_loading_witness :
  let ts := [DoLogout refusing_client; DoClearError;
             DoLogout (accepting_client ana)] in
  forallb is_logout_or_clearError ts = true
  /\ isLoading (run_all ts stuck_loading) = isLoading stuck_loading.
Proof.
  intros ts. split; [reflexivity|].
  apply (logout_and_clearError_keep_loading ts stuck_loading). reflexivity.
Defined.

Lemma overlapping_actions_stay_consistent_witness :
  let ts := [DoLogin (accepting_client ana) "a@b.com" "secret";
             DoLogout (accepting_client ana)] in
  interleaved (map sets_of ts) overlapping_schedule
  /\ consistent (apply_sets (firstn 2 overlapping_schedule) ana_signed_in).
Proof.
  intros ts.
  assert (Hsched : interleaved (map sets_of ts) overlapping_schedule).
  { apply (interleaved_next [] [[signed_out_patch]] loading_patch).
    apply (interleaved_next [[_]] [] signed_out_patch []).
    apply (interleaved_next [] [[]] _ []).
    apply interleaved_done. repeat constructor. }
  split; [exact Hsched|].
  apply (overlapping_actions_stay_consistent ts overlapping_schedule 2
           ana_signed_in Hsched).
  reflexivity.
Defined.

Lemma validateEmail_one_at_no_space_witness :
  validateEmail "a@b.com" = true
  /\ (count_occ ascii_dec (list_ascii_of_string "a@b.com") "@"%char = 1
      /\ forallb (fun c => negb (is_whitespace c)) (list_ascii_of_string "a@b.com")
         = true
      /\ 5 <= String.length "a@b.com").
Proof.
  split; [reflexivity|].
  apply (validateEmail_one_at_no_space "a@b.com"). reflexivity.
Defined.

Lemma LoginForm_submit_calls_only_when_valid_witness :
  In (CallSignInWithPassword "a@b.com" "secret")
    (client_calls (LoginForm_handleSubmit refusing_client filled_login_form
                     initialState))
  /\ (validateEmail "a@b.com" = true
      /\ "secret" <> ""
      /\ client_calls (LoginForm_handleSubmit refusing_client filled_login_form
                         initialState)
         = [CallSignInWithPassword "a@b.com" "secret"]).
Proof.
  assert (Hin : In (CallSignInWithPassword "a@b.com" "secret")
                  (client_calls (LoginForm_handleSubmit refusing_client
                                   filled_login_form initialState)))
    by (left; reflexivity).
  split; [exact Hin|].
  exact (LoginForm_submit_calls_only_when_valid refusing_client
           filled_login_form initialState _ Hin).
Defined.

Lemma LoginForm_submit_invalid_stays_local_witness :
  let f := {| lf_email := "emailinvalido"; lf_password := "secret";
              lf_errors := {| le_email := ""; le_password := "" |};
              lf_resetEmailSent := false |} in
  let r := LoginForm_handleSubmit (accepting_client ana) f ana_signed_in in
  auth_after r = ana_signed_in
  /\ client_calls r = []
  /\ navigations r = []
  /\ lf_email (form_after r) = "emailinvalido"
  /\ lf_password (form_after r) = "secret"
  /\ lf_errors (form_after r) <> {| le_email := ""; le_password := "" |}.
Proof.
  intros f.
  apply (LoginForm_submit_invalid_stays_local (accepting_client ana) f
           ana_signed_in).
  left. reflexivity.
Defined.

Lemma LoginForm_submit_navigates_after_failed_login_witness :
  let r := LoginForm_handleSubmit refusing_client filled_login_form initialState in
  navigations r = ["/dashboard"]
  /\ isAuthenticated (auth_after r) = false
  /\ user (auth_after r) = None
  /\ error (auth_after r) = Some login_error_message.
Proof.
  apply (LoginForm_submit_navigates_after_failed_login refusing_client
           filled_login_form initialState (mkError "Invalid login credentials")).
  - reflexivity.
  - discriminate.
  - reflexivity.
Defined.

Lemma LoginForm_submit_valid_runs_login_witness :
  let r := LoginForm_handleSubmit (accepting_client ana) filled_login_form
             initialState in
  auth_after r
  = store_after (login (accepting_client ana) "a@b.com" "secret") initialState
  /\ form_after r = filled_login_form
  /\ navigations r = ["/dashboard"]
  /\ rejected r = None.
Proof.
  apply (LoginForm_submit_valid_runs_login (accepting_client ana)
           filled_login_form initialState).
  - reflexivity.
  - discriminate.
Defined.

Lemma RegisterForm_submit_calls_only_when_valid_witness :
  js_not_string (trim "bob") = false
  /\ validateEmail "b@c.com" = true
  /\ 6 <= String.length "pw1234"
  /\ "pw1234" = "pw1234"
  /\ exists rest,
       client_calls (RegisterForm_handleSubmit refusing_client
                       filled_register_form initialState)
       = CallSelectUserByEmail "b@c.com" :: rest.
Proof.
  apply (RegisterForm_submit_calls_only_when_valid refusing_client
           filled_register_form initialState (CallSelectUserByEmail "b@c.com")).
  left. reflexivity.
Defined.

Lemma RegisterForm_submit_invalid_stays_local_witness :
  let f := {| rf_username := "bob"; rf_email := "b@c.com"; rf_password := "pw123";
              rf_confirmPassword := "pw123"; rf_errors := no_register_errors |} in
  let r := RegisterForm_handleSubmit (accepting_client ana) f initialState in
  auth_after r = initialState
  /\ client_calls r = []
  /\ navigations r = []
  /\ rf_errors (form_after r) <> no_register_errors.
Proof.
  intros f.
  apply (RegisterForm_submit_invalid_stays_local (accepting_client ana) f
           initialState).
  reflexivity.
Defined.

Lemma RegisterForm_submit_navigates_after_refusal_witness :
  let r := RegisterForm_handleSubmit refusing_client filled_register_form
             initialState in
  navigations r = ["/dashboard"]
  /\ auth_after r
     = {| user := None; isAuthenticated := false; isLoading := false;
          error := Some duplicate_account_message |}.
Proof.
  apply (RegisterForm_submit_navigates_after_refusal refusing_client
           filled_register_form initialState
           {| query_data := Some {| row_email := "b@c.com" |};
              query_error := None |}
           {| row_email := "b@c.com" |});
    reflexivity.
Defined.

Lemma handlePasswordReset_failure_is_generic_witness :
  fst (LoginForm_handlePasswordReset failing_reset "https://rutas.example"
         filled_login_form)
  = {| lf_email := "a@b.com"; lf_password := "secret";
       lf_errors := {| le_email := reset_failure_message; le_password := "" |};
       lf_resetEmailSent := false |}.
Proof.
  apply (handlePasswordReset_failure_is_generic failing_reset
           "https://rutas.example" filled_login_form
           (mkError "rate limit exceeded"));
    reflexivity.
Defined.

Lemma handleLogout_navigates_after_failed_signOut_witness :
  let r := MainLayout_handleLogout refusing_client ana_signed_in in
  navigations r = ["/login"]
  /\ user (auth_after r) = user ana_signed_in
  /\ isAuthenticated (auth_after r) = true
  /\ error (auth_after r) = Some "session not found".
Proof.
  apply (handleLogout_navigates_after_failed_signOut refusing_client
           ana_signed_in (mkError "session not found")).
  reflexivity.
Defined.

